(** * qsketch: the quantile sketch routine, the Sketcher and its worker stream

    A shallow embedding of [qsketch/sketch.py].

    - Python integers are [Z]; [len] is [Z.of_nat (length _)].
    - A raised exception is the [Raise] case of [result].
    - A batch [imgs] is the list of its samples (the rows of the tensor);
      a module maps each sample to one row of the flattened output.
    - An iterator is the list of the batches it will still yield; calls
      that advance it return the advanced iterator.
    - [torch.randint] takes its random draws from an explicit generator.
    - The worker pool is a transition system: one transition per block of
      [sketch_worker] that runs without giving up the lock.  *)

From stdpp Require Import base tactics option list numbers.
From Stdlib Require Import ZArith Lia.

#[local] Open Scope Z_scope.

(* ===================================================================== *)
(** ** Exceptions and results *)
(* ===================================================================== *)

(** The source raises bare [Exception]s told apart by their message; the
    constructors carry the names used for them in the design notes. *)
Inductive exn : Type :=
| EmptySourceError        (* 'Did not get any data from data_source. Cannot sketch.' *)
| NoDefaultDataError      (* 'Sketcher has no default data. Aborting.' *)
| UnsupportedSourceError  (* 'Sketcher: data_source type is not understood' *)
| TypeError               (* raised by Python itself *)
| IndexError              (* raised by Python itself *)
| RuntimeError.           (* raised by torch *)

Inductive result (A : Type) : Type :=
| Ok (a : A)
| Raise (e : exn).
Arguments Ok {A} a.
Arguments Raise {A} e.

#[global] Instance result_ret : MRet result := fun A a => Ok a.
#[global] Instance result_bind : MBind result := fun A B k r =>
  match r with
  | Ok a => k a
  | Raise e => Raise e
  end.

Definition len {A : Type} (l : list A) : Z := Z.of_nat (length l).

(** [l[:n]]: a negative bound counts from the end. *)
Definition py_take {A : Type} (n : Z) (l : list A) : list A :=
  if 0 <=? n then take (Z.to_nat n) l
  else take (length l - Z.to_nat (- n))%nat l.

(* ===================================================================== *)
(** ** Data sources: [to_iterator] *)
(* ===================================================================== *)

Section Sources.
Context {sample : Type}.

Definition batch : Type := list sample.

(** The objects [to_iterator] tells apart.  A queue is given by the
    batches it delivers before its [None] sentinel; a [DataStream] (its
    class lives in [qsketch/datastream.py]) is used through its [queue]
    attribute only.  [SrcIterator] is an [Iterable] with [__next__];
    [SrcIterable] is an [Iterable] without it (a list of batches, say);
    [SrcOther] is any object that is not [Iterable]. *)
Inductive data_source : Type :=
| SrcDataStream (msgs : list batch)
| SrcQueue (msgs : list batch)
| SrcTensor (t : batch)
| SrcDataset
| SrcDataLoader
| SrcIterator (pending : list batch)
| SrcIterable
| SrcOther.

Definition to_iterator (data_source : option data_source)
  : result (option Sources.data_source) :=
  match data_source with
  | None => Ok None
  | Some (SrcDataStream msgs) => Ok (Some (SrcIterator msgs))
  | Some (SrcQueue msgs) => Ok (Some (SrcIterator msgs))
  | Some (SrcTensor t) => Ok (Some (SrcIterator [t]))
  | Some SrcDataset => Ok (Some SrcDataLoader)
  | Some SrcDataLoader => Ok (Some SrcDataLoader)
  | Some (SrcIterator pending) => Ok (Some (SrcIterator pending))
  | Some SrcIterable => Ok (Some SrcIterable)
  | Some SrcOther => Raise UnsupportedSourceError
  end.
End Sources.
Arguments data_source : clear implicits.
Arguments batch : clear implicits.

(* ===================================================================== *)
(** ** The quantile sketch routine: [sketch] *)
(* ===================================================================== *)

Section Quantile.
Context {sample row pct quantiles : Type}.

(** [Percentile()(processed, percentiles).float()] of torchpercentile. *)
Variable Percentile : list row -> pct -> quantiles.

(** The content of the rows of [torch.empty] before they are written. *)
Variable uninit : nat -> row.

(** A module, applied to a batch and flattened by [view(n_imgs, -1)],
    gives one row per sample. *)
Definition module : Type := sample -> row.

(** [warnings.warn('Number of datapoints not reaching %d, but only %d.
    ...' % (num_examples, pos))] *)
Definition warning : Type := (Z * Z)%type.

(** [computed.view(n_imgs, -1)]: torch refuses to infer the [-1]
    dimension when the known ones multiply to 0. *)
Definition view (n_imgs : Z) (computed : list row) : result (list row) :=
  if n_imgs =? 0 then Raise RuntimeError else Ok computed.

(** [torch.empty((num_examples, width))] *)
Definition torch_empty (num_examples : Z) : result (list row) :=
  if num_examples <? 0 then Raise RuntimeError
  else Ok (uninit <$> seq 0 (Z.to_nat num_examples)).

(** [processed[pos:pos+n_imgs] = computed], for [0 <= pos]: the slice is
    cut at the end of the buffer, and torch refuses a [computed] whose
    number of rows is not that of the slice. *)
Definition set_slice (processed : list row) (pos n_imgs : Z)
    (computed : list row) : result (list row) :=
  let start := Z.to_nat pos in
  let stop := Z.to_nat (pos + n_imgs) in
  if decide (length (take (stop - start) (drop start processed))
             = length computed)
  then Ok (take start processed ++ computed ++ drop stop processed)
  else Raise RuntimeError.

(** The state of one module's loop when it is left. *)
Record loop_exit : Type := LoopExit {
  exit_processed : option (list row);
  exit_pos : Z;
  exit_warnings : list warning;
  exit_pending : list (batch sample)
}.

(** [True if num_examples is None else pos < num_examples] *)
Definition loop_cond (num_examples : option Z) (pos : Z) : bool :=
  match num_examples with
  | None => true
  | Some k => pos <? k
  end.

(** The [while] loop of [sketch] over an iterator with [__next__]: each
    turn takes one batch, so the recursion is on the pending batches. *)
Fixpoint accumulate (module : module) (num_examples : option Z)
    (pending : list (batch sample)) (processed : option (list row))
    (pos : Z) {struct pending} : result loop_exit :=
  if negb (loop_cond num_examples pos)
  then Ok (LoopExit processed pos [] pending)
  else
    match pending with
    | [] =>
        (* StopIteration *)
        Ok (LoopExit processed pos
              match num_examples with
              | Some k => [(k, pos)]
              | None => []
              end
              [])
    | imgs :: pending' =>
        let n_imgs :=
          match num_examples with
          | Some k => Z.min (len imgs) (k - pos)
          | None => len imgs
          end in
        computed ← view n_imgs (module <$> py_take n_imgs imgs);
        processed0 ←
          match processed with
          | Some p => Ok p
          | None =>
              match num_examples with
              | Some k => torch_empty k
              | None => Ok []
              end
          end;
        processed' ←
          match num_examples with
          | Some _ => set_slice processed0 pos n_imgs computed
          | None => Ok (processed0 ++ computed)
          end;
        accumulate module num_examples pending' (Some processed')
          (pos + n_imgs)
    end.

(** The loop on whatever [to_iterator] returned: [next] of [None], of a
    [DataLoader] or of another object without [__next__] is a
    [TypeError]. *)
Definition run_loop (module : module) (num_examples : option Z)
    (data_iterator : option (data_source sample))
  : result (loop_exit * option (data_source sample)) :=
  match data_iterator with
  | Some (SrcIterator pending) =>
      e ← accumulate module num_examples pending None 0;
      Ok (e, Some (SrcIterator (exit_pending e)))
  | _ =>
      if loop_cond num_examples 0 then Raise TypeError
      else Ok (LoopExit None 0 [] [], data_iterator)
  end.

(** The body of [for module in modules]: the rows handed to
    [Percentile], the warnings and the advanced iterator. *)
Definition sketch_module (module : module) (num_examples : option Z)
    (data_iterator : option (data_source sample))
  : result (list row * list warning * option (data_source sample)) :=
  '(e, data_iterator') ← run_loop module num_examples data_iterator;
  match exit_processed e with
  | None => Raise EmptySourceError
  | Some processed =>
      let processed := py_take (exit_pos e) processed in
      processed ← view (len processed) processed;
      Ok (processed, exit_warnings e, data_iterator')
  end.

(** [modules] is one module or an iterable of modules. *)
Inductive modules_arg : Type :=
| OneModule (m : module)
| Modules (ms : list module).

Inductive sketches : Type :=
| OneSketch (q : quantiles)
| Sketches (qs : list quantiles).

Fixpoint sketch_loop (modules : list module) (percentiles : pct)
    (num_examples : option Z) (data_iterator : option (data_source sample))
  : result (list quantiles * list warning * option (data_source sample)) :=
  match modules with
  | [] => Ok ([], [], data_iterator)
  | module :: modules' =>
      '(processed, ws, it) ← sketch_module module num_examples data_iterator;
      '(qs, ws', it') ← sketch_loop modules' percentiles num_examples it;
      Ok (Percentile processed percentiles :: qs, ws ++ ws', it')
  end.

(** [sketch(modules, data, percentiles, num_examples)]: the sketches, the
    warnings emitted and the iterator as the call leaves it. *)
Definition sketch (modules : modules_arg) (data : option (data_source sample))
    (percentiles : pct) (num_examples : option Z)
  : result (sketches * list warning * option (data_source sample)) :=
  let '(modules, iterable) :=
    match modules with
    | Modules ms => (ms, true)
    | OneModule m => ([m], false)
    end in
  data_iterator ← to_iterator data;
  '(qs, ws, it) ← sketch_loop modules percentiles num_examples data_iterator;
  if iterable then Ok (Sketches qs, ws, it)
  else
    match qs with
    | q :: _ => Ok (OneSketch q, ws, it)
    | [] => Raise IndexError
    end.

(* =================================================================== *)
(** ** [Sketcher]: construction and on-demand sketches *)
(* =================================================================== *)

Record Sketcher : Type := mkSketcher {
  data_iterator : option (data_source sample);
  percentiles : pct;
  num_examples : option Z
}.


(** Lines 164-173 of [Sketcher.__call__]: the iterator, percentiles and
    budget the call passes to [sketch]. *)
Definition call_arguments (self : Sketcher)
    (data : option (data_source sample)) (percentiles : option pct)
  : result (option (data_source sample) * pct * option Z) :=
  '(data_iterator, num_examples) ←
    match data with
    | None =>
        match self.(data_iterator) with
        | None => Raise NoDefaultDataError
        | Some it => Ok (Some it, self.(num_examples))
        end
    | Some d =>
        it ← to_iterator (Some d);
        Ok (it, None)
    end;
  let percentiles :=
    match percentiles with
    | None => self.(Quantile.percentiles)
    | Some p => p
    end in
  Ok (data_iterator, percentiles, num_examples).

(** [Sketcher.__call__]: the result of [sketch], and the sketcher with
    its default iterator advanced when the call drew from it. *)
Definition Sketcher_call (self : Sketcher) (modules : modules_arg)
    (data : option (data_source sample)) (percentiles : option pct)
  : result (sketches * list warning * Sketcher) :=
  '(data_iterator, percentiles, num_examples) ←
    call_arguments self data percentiles;
  '(qs, ws, it) ← sketch modules data_iterator percentiles num_examples;
  Ok (qs, ws,
      match data with
      | None => mkSketcher it self.(Quantile.percentiles) self.(Quantile.num_examples)
      | Some _ => self
      end).

(** [Sketcher.__getitem__] *)
Definition Sketcher_getitem (self : Sketcher) (modules : modules_arg)
  : result (sketches * list warning * Sketcher) :=
  Sketcher_call self modules None None.
End Quantile.

(* ===================================================================== *)
(** ** [Sketcher.stream]: the shared record *)
(* ===================================================================== *)

(** [torch.randint(low, high, size=(size,))]: a negative size and an empty
    range are refused; [draw i] is the raw random value behind element [i]. *)
Definition randint (draw : nat -> Z) (low high size : Z) : result (list Z) :=
  if (size <? 0) || (high <=? low) then Raise RuntimeError
  else Ok ((fun i => low + draw i mod (high - low)) <$> seq 0 (Z.to_nat size)).

(** [.int()]: the cast to 32-bit integers. *)
Definition to_int32 (z : Z) : Z := (z + 2 ^ 31) mod 2 ^ 32 - 2 ^ 31.

(** [torch.iinfo(torch.int16).max] *)
Definition int16_max : Z := 32767.

(** What [stream] and the workers ask of [modules]. *)
Record modules_source : Type := ModulesSource {
  is_ModulesDataset : bool;      (* isinstance(modules, ModulesDataset) *)
  modules_len : option Z         (* len(modules), when it has __len__ *)
}.

(** [sketcher.shared_data]; the key ['die'] is absent until [stop] adds
    it, [die] tells whether it is there. *)
Record shared_data : Type := SharedData {
  num_epochs : Z;
  max_id : Z;
  pause : bool;
  current_pick_epoch : Z;
  current_put_epoch : Z;
  current_sketch : Z;
  done_in_current_epoch : Z;
  num_sketches : Z;
  sketch_list : option (list Z);
  die : bool
}.

Definition set_pause (b : bool) (d : shared_data) : shared_data :=
  SharedData d.(num_epochs) d.(max_id) b d.(current_pick_epoch)
    d.(current_put_epoch) d.(current_sketch) d.(done_in_current_epoch)
    d.(num_sketches) d.(sketch_list) d.(die).

Definition set_die (d : shared_data) : shared_data :=
  SharedData d.(num_epochs) d.(max_id) d.(pause) d.(current_pick_epoch)
    d.(current_put_epoch) d.(current_sketch) d.(done_in_current_epoch)
    d.(num_sketches) d.(sketch_list) true.

Definition set_current_sketch (v : Z) (d : shared_data) : shared_data :=
  SharedData d.(num_epochs) d.(max_id) d.(pause) d.(current_pick_epoch)
    d.(current_put_epoch) v d.(done_in_current_epoch)
    d.(num_sketches) d.(sketch_list) d.(die).

Definition set_current_pick_epoch (v : Z) (d : shared_data) : shared_data :=
  SharedData d.(num_epochs) d.(max_id) d.(pause) v
    d.(current_put_epoch) d.(current_sketch) d.(done_in_current_epoch)
    d.(num_sketches) d.(sketch_list) d.(die).

Definition set_current_put_epoch (v : Z) (d : shared_data) : shared_data :=
  SharedData d.(num_epochs) d.(max_id) d.(pause) d.(current_pick_epoch)
    v d.(current_sketch) d.(done_in_current_epoch)
    d.(num_sketches) d.(sketch_list) d.(die).

Definition set_done_in_current_epoch (v : Z) (d : shared_data) : shared_data :=
  SharedData d.(num_epochs) d.(max_id) d.(pause) d.(current_pick_epoch)
    d.(current_put_epoch) d.(current_sketch) v
    d.(num_sketches) d.(sketch_list) d.(die).

Definition set_sketch_list (v : option (list Z)) (d : shared_data) : shared_data :=
  SharedData d.(num_epochs) d.(max_id) d.(pause) d.(current_pick_epoch)
    d.(current_put_epoch) d.(current_sketch) d.(done_in_current_epoch)
    d.(num_sketches) v d.(die).

(** A Python number that is an [int], or a [float] of integral value. *)
Inductive number : Type :=
| Int (z : Z)
| Float (z : Z).

(** Lines 207-211; [cpu_count] is [mp.cpu_count()].  [int((c - 1) / 2)]
    rounds the quotient towards zero; [min] and [max] return one of their
    arguments, so the bound [1e7] stays a [float] when it is the one
    returned. *)
Definition resolve_num_workers (cpu_count num_workers : Z) : number :=
  if num_workers <? 0 then
    let half := (cpu_count - 1) ÷ 2 in
    let capped := if half <? 10 ^ 7 then Int half else Float (10 ^ 7) in
    match capped with
    | Int z => if 1 <? z then Int z else Int 1
    | Float z => if 1 <? z then Float z else Int 1
    end
  else Int num_workers.

(** What [stream] leaves behind: the record, the [maxsize] of the queue
    and the number of worker processes started. *)
Record stream_setup : Type := StreamSetup {
  setup_shared : shared_data;
  setup_maxsize : Z;
  setup_processes : Z
}.

(** [Sketcher.stream], up to the start of the workers.  The record of an
    earlier stream, which [self.stop()] marks, is another object and is
    left out. *)
Definition stream (cpu_count : Z) (draw : nat -> Z) (modules : modules_source)
    (num_sketches num_epochs num_workers : Z) (max_id : option Z)
  : result stream_setup :=
  num_workers ←
    match resolve_num_workers cpu_count num_workers return result Z with
    | Int z => Ok z
    | Float _ => Raise TypeError     (* mp.Queue and range() want an int *)
    end;
  max_id ←
    match max_id return result Z with
    | None =>
        if negb modules.(is_ModulesDataset) then
          match modules.(modules_len) with
          | Some l => Ok l
          | None => Raise TypeError
          end
        else Ok int16_max
    | Some m => Ok m
    end;
  let recorded := if 0 <? num_sketches then num_sketches else -1 in
  sketch_list ←
    (if num_sketches =? -1 then Ok None
     else l ← randint draw 0 max_id recorded; Ok (Some (to_int32 <$> l))
     : result (option (list Z)));
  Ok (StreamSetup
        (SharedData num_epochs max_id false 0 0 0 0 recorded sketch_list false)
        (2 * num_workers)
        (if 0 <? num_workers then num_workers else 0)).

(* ===================================================================== *)
(** ** [sketch_worker]: the worker pool as a transition system *)
(* ===================================================================== *)

(** [sketch_list[id]] on a tensor: a negative index counts from the end. *)
Definition tensor_index (l : list Z) (i : Z) : result Z :=
  let j := if i <? 0 then i + len l else i in
  if j <? 0 then Raise IndexError
  else match l !! Z.to_nat j with
       | Some v => Ok v
       | None => Raise IndexError
       end.

(** What a worker takes out of the block of lines 320-360. *)
Record claimed : Type := Claimed {
  claimed_id : Z;
  claimed_sketch_id : Z;
  claimed_epoch : Z;
  worker_dying : bool
}.

(** Lines 320-360, run with the lock held. *)
Definition claim (modules : modules_source) (draw : nat -> Z) (d : shared_data)
  : result (shared_data * claimed) :=
  let id := d.(current_sketch) in
  sketch_id ←
    (if d.(num_sketches) =? -1 then
       let max :=
         match modules.(modules_len) with
         | Some l => l
         | None => int16_max
         end in
       l ← randint draw 0 max 1;
       tensor_index l 0
     else
       match d.(sketch_list) with
       | Some l => tensor_index l id
       | None => Raise TypeError
       end : result Z);
  let epoch := d.(current_pick_epoch) in
  if d.(num_epochs) <=? epoch then Ok (d, Claimed id sketch_id epoch true)
  else if id =? d.(num_sketches) - 1 then
    l ← randint draw 0 d.(max_id) d.(num_sketches);
    Ok (set_sketch_list (Some (to_int32 <$> l))
          (set_current_pick_epoch (d.(current_pick_epoch) + 1)
             (set_current_sketch 0 d)),
        Claimed id sketch_id epoch false)
  else
    Ok (set_current_sketch (d.(current_sketch) + 1) d,
        Claimed id sketch_id epoch false).

(** A queue message: [(target_qf.detach(), sketch_id)], of which the id is
    kept, or the sentinel [None]. *)
Inductive message : Type :=
| Item (sketch_id : Z)
| Sentinel.

(** [mp.Queue(maxsize)] holds any number of messages when [maxsize <= 0]. *)
Definition queue_full (maxsize : Z) (queue : list message) : bool :=
  (0 <? maxsize) && (maxsize <=? len queue).

(** Lines 409-417, run with the lock held: the record and the messages the
    block adds to the queue. *)
Definition count_done (d : shared_data) : shared_data * list message :=
  let d := set_done_in_current_epoch (d.(done_in_current_epoch) + 1) d in
  if d.(done_in_current_epoch) =? d.(num_sketches) then
    (set_current_put_epoch (d.(current_put_epoch) + 1)
       (set_done_in_current_epoch 0 d),
     [Sentinel])
  else (d, []).

(** Where a worker is in [sketch_worker]. *)
Inductive location : Type :=
| AtLoopHead          (* line 304: reads 'pause' *)
| AcquireClaim        (* line 315: waits for the lock *)
| Claiming            (* lines 320-360, lock held *)
| CrashedClaiming     (* an exception left the block of line 315: the
                         code after the yield of getlock is not run and
                         the lock stays held *)
| DrainQueue          (* line 368 *)
| ParkedDying         (* line 373 *)
| Computing           (* lines 380-381 *)
| CrashedComputing    (* an exception left lines 380-381 *)
| AcquireTurn         (* line 388: waits for the lock *)
| ReadTurn            (* lines 389-393, lock held until line 391 *)
| CheckDieWaiting     (* line 394 *)
| ParkedWaiting       (* line 396 *)
| Putting             (* line 404 *)
| AcquireCount        (* line 407: waits for the lock *)
| Counting            (* lines 409-417, lock held *)
| CheckDie            (* line 419 *)
| ParkedEnd           (* line 421 *)
| CheckPause.         (* line 426 *)

(** The local variables of one worker. *)
Record worker : Type := Worker {
  at_line : location;
  w_id : Z;
  w_sketch_id : Z;
  w_epoch : Z;
  pause_displayed : bool
}.

Definition goto (l : location) (w : worker) : worker :=
  Worker l w.(w_id) w.(w_sketch_id) w.(w_epoch) w.(pause_displayed).

Definition set_pause_displayed (b : bool) (w : worker) : worker :=
  Worker w.(at_line) w.(w_id) w.(w_sketch_id) w.(w_epoch) b.

Definition fresh_worker : worker := Worker AtLoopHead 0 0 0 false.

(** The pool: the shared record, the lock, the queue and the workers.
    [sent] is the history of all [queue.put] calls, oldest first, each with
    the [epoch] variable of the worker that made it; the code never reads
    it. *)
Record pool : Type := Pool {
  shared : shared_data;
  locked : bool;
  queue : list message;
  sent : list (Z * message);
  workers : list worker
}.

(** The pool right after [stream] started its processes. *)
Definition start (s : stream_setup) : pool :=
  Pool s.(setup_shared) false [] []
    (replicate (Z.to_nat s.(setup_processes)) fresh_worker).

(** One move of the system: worker [i] runs its next block ([draw] feeds
    the [torch.randint] calls of the block, [computed] tells whether
    [modules[sketch_id]] and [sketcher[module]] return rather than raise),
    the owner of the sketcher calls [pause], [resume] or [stop], or the
    consumer takes one message out of the queue. *)
Inductive action : Type :=
| Run (i : nat) (draw : nat -> Z) (computed : bool)
| CallPause
| CallResume
| CallStop
| ConsumerGet.

Section Workers.
Variable modules : modules_source.
Variable maxsize : Z.

Definition update (i : nat) (w : worker) (d : shared_data) (l : bool)
    (q : list message) (h : list (Z * message)) (p : pool) : pool :=
  Pool d l q h (<[i := w]> p.(workers)).

(** The next block of worker [i]; [None] when the worker cannot move
    (it waits for the lock or for room in the queue, or it is parked or
    dead). *)
Definition run_worker (i : nat) (draw : nat -> Z) (computed : bool)
    (p : pool) : option pool :=
  w ← p.(workers) !! i;
  let d := p.(shared) in
  let stay l := Some (update i (goto l w) d p.(locked) p.(queue) p.(sent) p) in
  match w.(at_line) with
  | AtLoopHead =>
      if negb d.(pause)
      then Some (update i (goto AcquireClaim (set_pause_displayed false w))
                   d p.(locked) p.(queue) p.(sent) p)
      else stay CheckDie
  | AcquireClaim =>
      if p.(locked) then None
      else Some (update i (goto Claiming w) d true p.(queue) p.(sent) p)
  | Claiming =>
      match claim modules draw d with
      | Raise _ => stay CrashedClaiming
      | Ok (d', c) =>
          let w' := Worker (if c.(worker_dying) then DrainQueue else Computing)
                      c.(claimed_id) c.(claimed_sketch_id) c.(claimed_epoch)
                      w.(pause_displayed) in
          Some (update i w' d' false p.(queue) p.(sent) p)
      end
  | DrainQueue =>
      match p.(queue) with
      | [] => stay ParkedDying
      | _ :: _ => None
      end
  | Computing => if computed then stay AcquireTurn else stay CrashedComputing
  | AcquireTurn =>
      if p.(locked) then None
      else Some (update i (goto ReadTurn w) d true p.(queue) p.(sent) p)
  | ReadTurn =>
      let current_put_epoch := d.(current_put_epoch) in
      Some (update i
              (goto (if current_put_epoch =? w.(w_epoch) then Putting
                     else CheckDieWaiting) w)
              d false p.(queue) p.(sent) p)
  | CheckDieWaiting => if d.(die) then stay ParkedWaiting else stay AcquireTurn
  | Putting =>
      if queue_full maxsize p.(queue) then None
      else Some (update i (goto AcquireCount w) d p.(locked)
                   (p.(queue) ++ [Item w.(w_sketch_id)])
                   (p.(sent) ++ [(w.(w_epoch), Item w.(w_sketch_id))]) p)
  | AcquireCount =>
      if p.(locked) then None
      else Some (update i (goto Counting w) d true p.(queue) p.(sent) p)
  | Counting =>
      let '(d', ms) := count_done d in
      match ms with
      | [] => Some (update i (goto CheckDie w) d' false p.(queue) p.(sent) p)
      | _ :: _ =>
          if queue_full maxsize p.(queue) then None
          else Some (update i (goto CheckDie w) d' false
                       (p.(queue) ++ ms)
                       (p.(sent) ++ ((fun m => (w.(w_epoch), m)) <$> ms)) p)
      end
  | CheckDie => if d.(die) then stay ParkedEnd else stay CheckPause
  | CheckPause =>
      if d.(pause)
      then Some (update i (goto AtLoopHead (set_pause_displayed true w))
                   d p.(locked) p.(queue) p.(sent) p)
      else stay AtLoopHead
  | CrashedClaiming | CrashedComputing
  | ParkedDying | ParkedWaiting | ParkedEnd => None
  end.

Definition exec (a : action) (p : pool) : option pool :=
  match a with
  | Run i draw computed => run_worker i draw computed p
  | CallPause =>
      Some (Pool (set_pause true p.(shared)) p.(locked) p.(queue) p.(sent)
              p.(workers))
  | CallResume =>
      Some (Pool (set_pause false p.(shared)) p.(locked) p.(queue) p.(sent)
              p.(workers))
  | CallStop =>
      Some (Pool (set_die p.(shared)) p.(locked) p.(queue) p.(sent)
              p.(workers))
  | ConsumerGet =>
      match p.(queue) with
      | [] => None
      | _ :: q => Some (Pool p.(shared) p.(locked) q p.(sent) p.(workers))
      end
  end.

(** A schedule, run from [p]; [None] when one of its moves is not
    possible. *)
Fixpoint run (schedule : list action) (p : pool) : option pool :=
  match schedule with
  | [] => Some p
  | a :: schedule' =>
      match exec a p with
      | Some p' => run schedule' p'
      | None => None
      end
  end.
End Workers.

(** The states the pool of a stream can reach. *)
Definition reachable (modules : modules_source) (s : stream_setup) (p : pool)
  : Prop :=
  exists schedule, run modules s.(setup_maxsize) schedule (start s) = Some p.

(** The history of [put] calls read as epochs: [Some (e, c)] when it is
    [e] closed epochs, each made of exactly [n] items sent by workers whose
    [epoch] is that epoch and then one sentinel, followed by [c] items of
    epoch [e]; [None] when it is not of that form. *)
Definition read_put (n : Z) (st : option (Z * Z)) (ev : Z * message)
  : option (Z * Z) :=
  match st with
  | None => None
  | Some (e, c) =>
      match ev with
      | (e', Item _) => if (e' =? e) && (c <? n) then Some (e, c + 1) else None
      | (e', Sentinel) => if (e' =? e) && (c =? n) then Some (e + 1, 0) else None
      end
  end.

Definition read_epochs (n : Z) (h : list (Z * message)) : option (Z * Z) :=
  foldl (read_put n) (Some (0, 0)) h.

(* ===================================================================== *)
(** ** What the proofs about the pool are stated with *)
(* ===================================================================== *)

(** The number of workers that satisfy [P]. *)
Definition countb (P : worker -> bool) (ws : list worker) : Z :=
  foldr (fun w acc => (if P w then 1 else 0) + acc) 0 ws.

(** From the claim to the count of line 409 the worker owes the queue one
    item of its epoch; a worker that crashed or parked on the way owes it
    for ever. *)
Definition holds_item (l : location) : bool :=
  match l with
  | Computing | CrashedComputing | AcquireTurn | ReadTurn | CheckDieWaiting
  | ParkedWaiting | Putting | AcquireCount | Counting => true
  | _ => false
  end.

(** The worker has seen [current_put_epoch == epoch]. *)
Definition may_put (l : location) : bool :=
  match l with
  | Putting | AcquireCount | Counting => true
  | _ => false
  end.

(** The worker has put its item and not yet counted it. *)
Definition has_put (l : location) : bool :=
  match l with
  | AcquireCount | Counting => true
  | _ => false
  end.

(** The workers that hold a slot of epoch [e]. *)
Definition holders (e : Z) (ws : list worker) : Z :=
  countb (fun w => holds_item w.(at_line) && (w.(w_epoch) =? e)) ws.

Definition posted (ws : list worker) : Z :=
  countb (fun w => has_put w.(at_line)) ws.

(** How many workers hold a slot of epoch [e], by the record alone. *)
Definition expected (d : shared_data) (e : Z) : Z :=
  if e <? d.(current_put_epoch) then 0
  else if e =? d.(current_put_epoch) then
    (if d.(current_put_epoch) <? d.(current_pick_epoch)
     then d.(num_sketches) else d.(current_sketch))
    - d.(done_in_current_epoch)
  else if e <? d.(current_pick_epoch) then d.(num_sketches)
  else if e =? d.(current_pick_epoch) then d.(current_sketch)
  else 0.

(** The invariant of a stream with [n > 0] sketches per epoch. *)
Record bounded_inv (n : Z) (p : pool) : Prop := BoundedInv {
  inv_n : p.(shared).(num_sketches) = n;
  inv_slot : 0 <= p.(shared).(current_sketch) < n;
  inv_done : 0 <= p.(shared).(done_in_current_epoch) < n;
  inv_epochs :
    0 <= p.(shared).(current_put_epoch) <= p.(shared).(current_pick_epoch);
  inv_turn :
    Forall (fun w => may_put w.(at_line) = true ->
                     w.(w_epoch) = p.(shared).(current_put_epoch))
      p.(workers);
  inv_holders : forall e, holders e p.(workers) = expected p.(shared) e;
  inv_sent :
    read_epochs n p.(sent)
      = Some (p.(shared).(current_put_epoch),
              p.(shared).(done_in_current_epoch) + posted p.(workers));
  inv_queue : exists taken, p.(sent).*2 = taken ++ p.(queue)
}.

(** The invariant of a stream without epochs. *)
Record unbounded_inv (p : pool) : Prop := UnboundedInv {
  unb_n : p.(shared).(num_sketches) = -1;
  unb_slot : 0 <= p.(shared).(current_sketch);
  unb_done : 0 <= p.(shared).(done_in_current_epoch);
  unb_pick : p.(shared).(current_pick_epoch) = 0;
  unb_put : p.(shared).(current_put_epoch) = 0;
  unb_sent : Forall (fun ev => ev.2 <> Sentinel) p.(sent)
}.

(** The fields of the record the invariants speak of. *)
Definition counters (d : shared_data) : Z * Z * Z * Z * Z :=
  (d.(current_pick_epoch), d.(current_put_epoch), d.(current_sketch),
   d.(done_in_current_epoch), d.(num_sketches)).

(** Case analysis on the comparisons of integers in the goal and in the
    hypotheses. *)
Ltac zcases :=
  repeat match goal with
    | |- context [?a <? ?b] => destruct (Z.ltb_spec a b)
    | |- context [?a =? ?b] => destruct (Z.eqb_spec a b)
    | H : context [?a <? ?b] |- _ => destruct (Z.ltb_spec a b)
    | H : context [?a =? ?b] |- _ => destruct (Z.eqb_spec a b)
    end.

(** Samples and rows are integers, the module multiplies by ten and the
    sketch of a list of rows is the list itself. *)
Definition ex_Percentile (rows : list Z) (p : unit) : list Z := rows.
Definition ex_uninit (i : nat) : Z := 0.
Definition ex_module : Z -> Z := Z.mul 10.
Definition ex_sketcher (budget : option Z) : @Sketcher Z unit :=
  mkSketcher (Some (SrcIterator [[1; 2; 3]])) tt budget.

Definition ex_modules : modules_source := ModulesSource false (Some 100).
Definition ex_draw (i : nat) : Z := 50 + Z.of_nat i.

(** One worker, two sketches per epoch, one epoch. *)
Definition ex_setup : stream_setup :=
  StreamSetup (SharedData 1 5 false 0 0 0 0 2 (Some [0; 1]) false) 2 1.

(** The worker goes twice round its loop; the consumer takes the first
    item out, which makes room for the sentinel. *)
Definition ex_schedule : list action :=
  replicate 19 (Run 0 ex_draw true) ++ [ConsumerGet]
    ++ replicate 3 (Run 0 ex_draw true).

Definition ex_pool : pool :=
  Pool (SharedData 1 5 false 1 1 0 0 2 (Some [0; 1]) false) false
    [Item 1; Sentinel]
    [(0, Item 0); (0, Item 1); (0, Sentinel)]
    [Worker AtLoopHead 1 1 0 false].

(** No epochs, and a bound [max_id = 10] below the 100 modules. *)
Definition ex_setup_unbounded : stream_setup :=
  StreamSetup (SharedData 1 10 false 0 0 0 0 (-1) None false) 2 1.

Definition ex_pool_unbounded : pool :=
  Pool (SharedData 1 10 false 0 0 1 0 (-1) None false) false [] []
    [Worker Computing 0 50 0 false].

(* ===================================================================== *)
(** ** More of the pool: the lock, the flags and the messages put *)
(* ===================================================================== *)

(** The worker is inside a [with getlock()] block, or died inside one. *)
Definition lock_held (l : location) : bool :=
  match l with
  | Claiming | CrashedClaiming | ReadTurn | Counting => true
  | _ => false
  end.

Definition is_item (m : message) : bool :=
  match m with
  | Item _ => true
  | Sentinel => false
  end.

(** The number of [put] calls of the history whose message satisfies [P]. *)
Definition count_put (P : message -> bool) (h : list (Z * message)) : Z :=
  foldr (fun ev acc => (if P ev.2 then 1 else 0) + acc) 0 h.

Definition items_put (h : list (Z * message)) : Z := count_put is_item h.

Definition sentinels_put (h : list (Z * message)) : Z :=
  count_put (fun m => negb (is_item m)) h.

(** Once ['die'] is in the record, a worker at one of these places can
    still reach line 404; from the others it cannot. *)
Definition puts_after_stop (l : location) : bool :=
  match l with
  | AtLoopHead | AcquireClaim | Claiming | Computing | AcquireTurn | ReadTurn
  | CheckDieWaiting | Putting | CheckPause => true
  | _ => false
  end.

(** The same while ['pause'] stays set. *)
Definition puts_while_paused (l : location) : bool :=
  match l with
  | AcquireClaim | Claiming | Computing | AcquireTurn | ReadTurn
  | CheckDieWaiting | Putting => true
  | _ => false
  end.

(** The schedule holds no call of [resume]. *)
Definition no_resume (schedule : list action) : bool :=
  forallb (fun a => match a with CallResume => false | _ => true end) schedule.

(** A stream of [N] epochs: the pick epoch stays within them, and so do
    the epochs of the workers that hold a slot and of the messages put. *)
Definition epochs_inv (N : Z) (p : pool) : Prop :=
  p.(shared).(num_epochs) = N /\
  p.(shared).(current_pick_epoch) <= Z.max 0 N /\
  Forall (fun w => holds_item w.(at_line) = true -> w.(w_epoch) < N)
    p.(workers) /\
  Forall (fun ev => ev.1 < N) p.(sent).

(** A stream with epochs over ids below [M]: the list of the epoch has
    one id per slot, no worker died while claiming, and, as long as the
    ids fit 32 bits, the ids of the list, of the workers that hold a slot
    and of the items put are all in [[0, M)]. *)
Definition ids_inv (n M : Z) (p : pool) : Prop :=
  p.(shared).(max_id) = M /\ 0 < M /\
  (exists l, p.(shared).(sketch_list) = Some l /\ len l = n /\
             (M <= 2 ^ 31 -> Forall (fun v => 0 <= v < M) l)) /\
  Forall (fun w => w.(at_line) <> CrashedClaiming) p.(workers) /\
  (M <= 2 ^ 31 ->
   Forall (fun w => holds_item w.(at_line) = true -> 0 <= w.(w_sketch_id) < M)
     p.(workers) /\
   Forall (fun ev => forall id, ev.2 = Item id -> 0 <= id < M) p.(sent)).

(** A stream without epochs in which no worker got past its claim. *)
Definition idle_inv (p : pool) : Prop :=
  p.(shared).(num_sketches) = -1 /\
  Forall (fun w => holds_item w.(at_line) = false /\ w.(at_line) <> DrainQueue)
    p.(workers) /\
  p.(sent) = [] /\ p.(queue) = [].

(* ===================================================================== *)
(** ** [ModulesDataset] ([qsketch/datasets.py]) *)
(* ===================================================================== *)

(** [indexes]: an [int], or an iterable of them. *)
Inductive index_arg : Type :=
| IntIndex (i : Z)
| IndexList (l : list Z).

Section ModulesDataset.
Context {params rng : Type}.

(** [self.module_class] called on the stored keyword arguments: the
    parameters of a new
    module are drawn from torch's global generator, which moves on. *)
Variable construct : rng -> params * rng.

(** [torch.manual_seed(index)] followed by [reset_parameters()], or by
    one [torch.randn] per entry of the state dict: the parameters a
    module of the class ends with, and the global generator it leaves;
    both depend on [index] alone. *)
Variable seeded : Z -> params * rng.

(** The fields of a [ModulesDataset] that change; a module is known by
    its address in the store of modules. *)
Record ModulesDataset : Type := MkModulesDataset {
  md_pos : Z;
  md_current : option nat;
  md_recycle : bool
}.

(** The dataset, the store of the modules built so far (by address) and
    torch's global generator. *)
Record md_world : Type := MdWorld {
  md_self : ModulesDataset;
  md_heap : list params;
  md_rng : rng
}.

(** [ModulesDataset.__init__] *)
Definition MD_init (recycle : bool) (g : rng) : md_world :=
  MdWorld (MkModulesDataset 0 None recycle) [] g.

(** The call of [self.module_class]: a new module, at a new address. *)
Definition MD_new_module (w : md_world) : nat * md_world :=
  let '(p, g) := construct w.(md_rng) in
  (length w.(md_heap), MdWorld w.(md_self) (w.(md_heap) ++ [p]) g).

(** [recycle_module(self, module, index)]: the module is changed in
    place. *)
Definition MD_recycle_module (module : nat) (index : Z) (w : md_world)
  : md_world :=
  let '(p, g) := seeded index in
  MdWorld w.(md_self) (<[module := p]> w.(md_heap)) g.

(** What [__getitem__] returns: one module, or a list of modules. *)
Inductive md_item : Type :=
| OneItem (module : nat)
| ItemList (modules : list nat).

(** [__getitem__]: the world it leaves and what it returns or raises.  In
    the branch of the lists, [ModulesDataset.recycle_module(new_module,
    index)] gives the function two arguments where it takes three: the
    call raises a [TypeError] at the first index, after the module was
    built. *)
Definition MD_getitem (indexes : index_arg) (w : md_world)
  : md_world * result md_item :=
  match indexes with
  | IntIndex i =>
      let '(result, w) :=
        if w.(md_self).(md_recycle) then
          match w.(md_self).(md_current) with
          | None =>
              let '(a, w) := MD_new_module w in
              (a, MdWorld (MkModulesDataset w.(md_self).(md_pos) (Some a)
                             w.(md_self).(md_recycle))
                    w.(md_heap) w.(md_rng))
          | Some a => (a, w)
          end
        else MD_new_module w in
      (MD_recycle_module result i w, Ok (OneItem result))
  | IndexList [] => (w, Ok (ItemList []))
  | IndexList (index :: _) =>
      let '(new_module, w) := MD_new_module w in
      (w, Raise TypeError)
  end.

Definition md_set_recycle (b : bool) (w : md_world) : md_world :=
  MdWorld (MkModulesDataset w.(md_self).(md_pos) w.(md_self).(md_current) b)
    w.(md_heap) w.(md_rng).

(** [__call__]: when [self[indexes]] raises, the line that puts
    [self.recycle] back is not reached. *)
Definition MD_call (indexes : index_arg) (w : md_world)
  : md_world * result md_item :=
  let recycle_state := w.(md_self).(md_recycle) in
  let w := md_set_recycle false w in
  match MD_getitem indexes w with
  | (w, Ok result) => (md_set_recycle recycle_state w, Ok result)
  | (w, Raise e) => (w, Raise e)
  end.

(** [__next__] *)
Definition MD_next (w : md_world) : md_world * result md_item :=
  let pos := w.(md_self).(md_pos) + 1 in
  let w := MdWorld (MkModulesDataset pos w.(md_self).(md_current)
                      w.(md_self).(md_recycle))
             w.(md_heap) w.(md_rng) in
  MD_getitem (IntIndex pos) w.

(** The first [n] turns of [for module in modules]: the parameters each
    module carries when the loop gets it. *)
Fixpoint MD_iterate (n : nat) (w : md_world) : md_world * list (option params) :=
  match n with
  | O => (w, [])
  | S n' =>
      match MD_next w with
      | (w', Ok (OneItem a)) =>
          let '(w'', ps) := MD_iterate n' w' in
          (w'', w'.(md_heap) !! a :: ps)
      | (w', _) => (w', [])
      end
  end.

(** [current] is a module of the store. *)
Definition md_wf (w : md_world) : Prop :=
  match w.(md_self).(md_current) with
  | Some a => (a < length w.(md_heap))%nat
  | None => True
  end.
End ModulesDataset.

(* ===================================================================== *)
(** ** [TransformedDataset] ([qsketch/datasets.py]) *)
(* ===================================================================== *)

Section TransformedDataset.
Context {X Y : Type}.

(** [self.dataset[id]], which may raise, and the two transforms, which
    may be [None]. *)
Record TransformedDataset : Type := MkTransformedDataset {
  td_dataset : Z -> result (X * Y);
  td_len : result Z;
  td_transform : option (X -> X);
  td_target_transform : option (Y -> Y)
}.

(** What [__getitem__] returns: one pair, or a list of pairs. *)
Inductive td_item : Type :=
| OnePair (xy : X * Y)
| PairList (l : list (X * Y)).

(** The loop [for id in indices]. *)
Fixpoint TD_loop (self : TransformedDataset) (indices : list Z)
  : result (list (X * Y)) :=
  match indices with
  | [] => Ok []
  | id :: indices' =>
      '(x, y) ← self.(td_dataset) id;
      let item :=
        (match self.(td_transform) with
         | None => x
         | Some transform => transform x
         end,
         match self.(td_target_transform) with
         | None => y
         | Some target_transform => target_transform y
         end) in
      result ← TD_loop self indices';
      Ok (item :: result)
  end.

(** [__getitem__] *)
Definition TD_getitem (self : TransformedDataset) (indices : index_arg)
  : result td_item :=
  match indices with
  | IndexList l => result ← TD_loop self l; Ok (PairList result)
  | IntIndex i =>
      result ← TD_loop self [i];
      match result with
      | xy :: _ => Ok (OnePair xy)
      | [] => Raise IndexError
      end
  end.

(** [__len__] *)
Definition TD_len (self : TransformedDataset) : result Z := self.(td_len).
End TransformedDataset.

(* ===================================================================== *)
(** ** More values for the examples *)
(* ===================================================================== *)

(** The pool of [ex_setup] right after [stop], ten moves of its worker,
    and where they lead. *)
Definition ex_stopped : pool :=
  Pool (SharedData 1 5 false 0 0 0 0 2 (Some [0; 1]) true) false [] []
    [fresh_worker].

Definition ex_stopped_schedule : list action :=
  replicate 10 (Run 0 ex_draw true).

Definition ex_stopped_end : pool :=
  Eval vm_compute in
    default ex_stopped (run ex_modules 2 ex_stopped_schedule ex_stopped).

(** The pool of [ex_setup] paused while its worker computes, and eleven
    moves of the worker. *)
Definition ex_paused : pool :=
  Pool (SharedData 1 5 true 0 0 1 0 2 (Some [0; 1]) false) false [] []
    [Worker Computing 0 0 0 false].

Definition ex_paused_schedule : list action :=
  replicate 11 (Run 0 ex_draw true).

Definition ex_paused_end : pool :=
  Eval vm_compute in
    default ex_paused (run ex_modules 2 ex_paused_schedule ex_paused).

(** No module at all, and the stream without epochs over it after three
    moves of its worker. *)
Definition ex_no_modules : modules_source := ModulesSource false (Some 0).

Definition ex_setup_no_modules : stream_setup :=
  StreamSetup (SharedData 1 0 false 0 0 0 0 (-1) None false) 2 1.

Definition ex_pool_no_modules : pool :=
  Eval vm_compute in
    default (start ex_setup_no_modules)
      (run ex_no_modules 2 (replicate 3 (Run 0 ex_draw true))
         (start ex_setup_no_modules)).

(** Modules whose parameters are one integer: a new module takes the
    state of the generator, a reseeded one takes [100 + index]. *)
Definition ex_construct (g : Z) : Z * Z := (g, g + 1).
Definition ex_seeded (index : Z) : Z * Z := (100 + index, index).

(** A dataset of three pairs, whose samples get one added. *)
Definition ex_transformed : @TransformedDataset Z Z :=
  MkTransformedDataset
    (fun id => if (0 <=? id) && (id <? 3) then Ok (id, 2 * id)
               else Raise IndexError)
    (Ok 3) (Some (Z.add 1)) None.

(* ===================================================================== *)
(** * Properties of the quantile sketch routine *)
(* ===================================================================== *)

Section QuantileTheory.
Context {sample row pct quantiles : Type}.
Variable Percentile : list row -> pct -> quantiles.
Variable uninit : nat -> row.

Implicit Types (m : @module sample row) (bs : list (batch sample)).

(** The number of samples a list of batches holds. *)
Lemma len_concat_cons (b : batch sample) bs :
  len (concat (b :: bs)) = len b + len (concat bs).
Proof. unfold len. simpl. rewrite length_app. lia. Qed.

Lemma len_nonneg {A} (l : list A) : 0 <= len l.
Proof. unfold len. lia. Qed.

Lemma len_pos_nonempty {A} (l : list A) : l <> [] -> 1 <= len l.
Proof. destruct l; [congruence | unfold len; simpl; lia]. Qed.

Lemma py_take_nonneg {A} (n : Z) (l : list A) :
  0 <= n -> py_take n l = take (Z.to_nat n) l.
Proof. intros H. unfold py_take. destruct (Z.leb_spec 0 n); [done | lia]. Qed.



(** The loop without a budget takes every batch. *)
Lemma accumulate_all m bs :
  Forall (fun b => b <> []) bs ->
  forall (processed : option (list row)) (pos : Z),
    exists e,
      accumulate uninit m None bs processed pos = Ok e /\
      exit_pos e = pos + len (concat bs) /\
      exit_warnings e = [] /\
      exit_pending e = [] /\
      exit_processed e
        = match bs with
          | [] => processed
          | _ :: _ => Some (default [] processed ++ (m <$> concat bs))
          end.
Proof.
  induction 1 as [| imgs bs Himgs Hbs IH]; intros processed pos.
  - simpl. eexists. split; [reflexivity |]. simpl.
    repeat split. unfold len. simpl. lia.
  - rewrite len_concat_cons.
    pose proof (len_pos_nonempty _ Himgs) as Hlen.
    simpl accumulate. unfold view.
    destruct (Z.eqb_spec (len imgs) 0) as [? | _]; [lia |].
    cbn [mbind result_bind].
    rewrite py_take_nonneg by lia. unfold len at 1.
    rewrite Nat2Z.id, (take_ge imgs) by lia.
    assert (match processed with Some p => Ok p | None => Ok [] end
            = Ok (default [] processed)) as -> by (by destruct processed).
    cbn [mbind result_bind].
    destruct (IH (Some (default [] processed ++ (m <$> imgs))) (pos + len imgs))
      as (e & -> & Hp & Hw & Hrest & Hproc).
    exists e. repeat split; [lia | done | done |].
    rewrite Hproc. simpl concat. rewrite fmap_app.
    destruct bs as [| b bs']; simpl.
    + by rewrite app_nil_r.
    + by rewrite <- app_assoc.
Qed.






(** The loop itself raises nothing but what torch raises. *)
Lemma accumulate_raises m ne bs :
  forall (processed : option (list row)) (pos : Z) (x : exn),
    accumulate uninit m ne bs processed pos = Raise x -> x = RuntimeError.
Proof.
  induction bs as [| imgs bs IH]; intros processed pos x.
  - simpl. by destruct (negb _).
  - simpl accumulate. destruct (negb _); [done |].
    unfold view, torch_empty, set_slice.
    repeat (case_match; cbn [mbind result_bind];
            try done; try (by intros [= <-]); try apply IH).
Qed.



(** Without a budget the rows handed to [Percentile] are those of every
    sample of the source. *)
Lemma sketch_module_all m bs :
  bs <> [] -> Forall (fun b => b <> []) bs ->
  sketch_module uninit m None (Some (SrcIterator bs))
    = Ok (m <$> concat bs, [], Some (SrcIterator [])).
Proof.
  intros Hne Hall.
  destruct (accumulate_all m bs Hall None 0) as (e & He & Hp & Hw & Hrest & Hproc).
  unfold sketch_module, run_loop. rewrite He. cbn [mbind result_bind].
  rewrite Hproc, Hp, Hw, Hrest.
  destruct bs as [| b bs']; [done |]. simpl default. rewrite app_nil_l.
  assert (1 <= len (concat (b :: bs'))) as Htotal.
  { inversion Hall as [| ? ? Hb _]; subst. rewrite len_concat_cons.
    pose proof (len_pos_nonempty _ Hb). pose proof (len_nonneg (concat bs')). lia. }
  rewrite py_take_nonneg by lia.
  rewrite take_ge by (unfold len; rewrite length_fmap; lia).
  unfold view.
  destruct (Z.eqb_spec (len (m <$> concat (b :: bs'))) 0) as [Hz | _]; [| done].
  unfold len in *. rewrite length_fmap in Hz. lia.
Qed.

(** [sketch] has no way to raise [NoDefaultDataError]. *)
Lemma sketch_module_raises m ne it (x : exn) :
  sketch_module uninit m ne it = Raise x -> x <> NoDefaultDataError.
Proof.
  unfold sketch_module.
  destruct (run_loop uninit m ne it) as [[e it'] | y] eqn:Hrun;
    cbn [mbind result_bind].
  - unfold view. repeat (case_match; cbn [mbind result_bind]; try done);
      by intros [= <-].
  - intros [= ->]. revert Hrun. unfold run_loop.
    repeat (case_match; try done); try (by intros [= <-]).
    destruct (accumulate _ _ _ _ _ _) eqn:He; [done |].
    cbn [mbind result_bind]. intros [= ->].
    by apply accumulate_raises in He as ->.
Qed.

Lemma sketch_loop_raises (ms : list (@module sample row)) (p : pct) ne :
  forall it (x : exn),
    sketch_loop Percentile uninit ms p ne it = Raise x ->
    x <> NoDefaultDataError.
Proof.
  induction ms as [| m ms IH]; intros it x; [done |].
  simpl. destruct (sketch_module uninit m ne it) as [[[rows ws] it'] | y] eqn:Hm;
    cbn [mbind result_bind].
  - destruct (sketch_loop _ _ ms p ne it') as [[[qs ws'] it''] | y] eqn:Hl;
      cbn [mbind result_bind]; [done |].
    intros [= ->]. by eapply IH.
  - intros [= ->]. by eapply sketch_module_raises.
Qed.

Lemma sketch_raises (ms : @modules_arg sample row) data (p : pct) ne (x : exn) :
  sketch Percentile uninit ms data p ne = Raise x -> x <> NoDefaultDataError.
Proof.
  unfold sketch.
  destruct (match ms with Modules l => (l, true) | OneModule m => ([m], false) end)
    as [l iterable].
  destruct (to_iterator data) as [it |] eqn:Hit; cbn [mbind result_bind].
  2:{ intros [= <-]. revert Hit. unfold to_iterator.
      repeat (case_match; try done). by intros [= <-]. }
  destruct (sketch_loop _ _ l p ne it) as [[[qs ws] it'] | y] eqn:Hl;
    cbn [mbind result_bind].
  - repeat (case_match; try done). by intros [= <-].
  - intros [= ->]. by eapply sketch_loop_raises.
Qed.

(** C8 (amended). The on-demand operation fails with
    [NoDefaultDataError] exactly when the sketcher has no default
    iterator and the call supplies no data.  With a default iterator and
    no data, and with supplied data of a kind [to_iterator] knows, it
    goes on into [sketch]; supplied data of no known kind makes it fail
    with [UnsupportedSourceError] before [sketch] is reached. *)
Theorem no_default_data_error (self : @Sketcher sample pct)
    (ms : @modules_arg sample row) data (p : option pct) :
  (Sketcher_call Percentile uninit self ms data p = Raise NoDefaultDataError
   <-> self.(data_iterator) = None /\ data = None) /\
  (forall it, data = None -> self.(data_iterator) = Some it ->
     call_arguments self data p
       = Ok (Some it, default self.(percentiles) p, self.(num_examples)) /\
     Sketcher_call Percentile uninit self ms data p
       = '(qs, ws, it') ← sketch Percentile uninit ms (Some it)
                            (default self.(percentiles) p) self.(num_examples);
         Ok (qs, ws, mkSketcher it' self.(percentiles) self.(num_examples))) /\
  (forall d it, data = Some d -> to_iterator (Some d) = Ok it ->
     call_arguments self data p
       = Ok (it, default self.(percentiles) p, None) /\
     Sketcher_call Percentile uninit self ms data p
       = '(qs, ws, _) ← sketch Percentile uninit ms it
                          (default self.(percentiles) p) None;
         Ok (qs, ws, self)) /\
  (data = Some SrcOther ->
     call_arguments self data p = Raise UnsupportedSourceError /\
     Sketcher_call Percentile uninit self ms data p
       = Raise UnsupportedSourceError).
Proof.
  split; [| split; [| split]].
  - split.
    + unfold Sketcher_call, call_arguments.
      destruct data as [d |].
      * destruct (to_iterator (Some d)) as [it |] eqn:Hit;
          cbn [mbind result_bind].
        -- destruct (sketch _ _ ms it _ None) as [[[qs ws] it'] | x] eqn:Hs;
             cbn [mbind result_bind]; [done |].
           intros [= ->]. by apply sketch_raises in Hs.
        -- intros [= ->]. revert Hit. unfold to_iterator.
           by repeat (case_match; try done).
      * destruct (data_iterator self) as [it |]; [| done].
        cbn [mbind result_bind].
        destruct (sketch _ _ ms (Some it) _ _) as [[[qs ws] it'] | x] eqn:Hs;
          cbn [mbind result_bind]; [done |].
        intros [= ->]. by apply sketch_raises in Hs.
    + intros [Hit ->]. unfold Sketcher_call, call_arguments. by rewrite Hit.
  - intros it -> Hit. unfold Sketcher_call, call_arguments. rewrite Hit.
    cbn [mbind result_bind]. split; [done |].
    by destruct (sketch _ _ ms (Some it) _ _) as [[[qs ws] it'] |].
  - intros d it -> Hit. unfold Sketcher_call, call_arguments. rewrite Hit.
    cbn [mbind result_bind]. split; [done |].
    by destruct (sketch _ _ ms it _ _) as [[[qs ws] it'] |].
  - intros ->. done.
Qed.

End QuantileTheory.

(* ===================================================================== *)
(** * Properties of the stream and of the worker pool *)
(* ===================================================================== *)

Lemma countb_nonneg P ws : 0 <= countb P ws.
Proof. induction ws as [| w ws IH]; simpl; [lia | destruct (P w); lia]. Qed.

Lemma countb_insert P ws i w w' :
  ws !! i = Some w ->
  countb P (<[i := w']> ws)
    = countb P ws - (if P w then 1 else 0) + (if P w' then 1 else 0).
Proof.
  revert i. induction ws as [| v ws IH]; intros i; [done |].
  destruct i as [| i]; simpl.
  - intros [= ->]. lia.
  - intros H. rewrite (IH _ H). lia.
Qed.

Lemma countb_le P Q ws :
  Forall (fun w => P w = true -> Q w = true) ws -> countb P ws <= countb Q ws.
Proof.
  induction 1 as [| w ws Hw _ IH]; simpl; [lia |].
  destruct (P w); [rewrite Hw by done |]; [lia |].
  destruct (Q w); lia.
Qed.

Lemma countb_zero P ws :
  countb P ws = 0 -> Forall (fun w => P w = false) ws.
Proof.
  induction ws as [| w ws IH]; simpl; [constructor |].
  pose proof (countb_nonneg P ws). destruct (P w) eqn:HP; [lia |].
  intros Hz. constructor; [done | apply IH; lia].
Qed.

Lemma countb_replicate P k w : P w = false -> countb P (replicate k w) = 0.
Proof. intros H. induction k as [| k IH]; simpl; [done |]. rewrite H. lia. Qed.

(** What [claim] does to the record. *)
Lemma claim_cases modules draw d d' c :
  claim modules draw d = Ok (d', c) ->
  c.(claimed_epoch) = d.(current_pick_epoch) /\
  c.(claimed_id) = d.(current_sketch) /\
  ((c.(worker_dying) = true /\ d' = d) \/
   (c.(worker_dying) = false /\
    d.(current_sketch) = d.(num_sketches) - 1 /\
    exists l, d' = set_sketch_list (Some l)
                     (set_current_pick_epoch (d.(current_pick_epoch) + 1)
                        (set_current_sketch 0 d))) \/
   (c.(worker_dying) = false /\
    d.(current_sketch) <> d.(num_sketches) - 1 /\
    d' = set_current_sketch (d.(current_sketch) + 1) d)).
Proof.
  unfold claim.
  destruct (if num_sketches d =? -1 then _ else _) as [sketch_id |];
    cbn [mbind result_bind]; [| done].
  destruct (Z.leb_spec (num_epochs d) (current_pick_epoch d)).
  { intros [= <- <-]. simpl. by auto. }
  destruct (Z.eqb_spec (current_sketch d) (num_sketches d - 1)) as [Hlast | Hlast].
  - destruct (randint draw 0 (max_id d) (num_sketches d)) as [l |];
      cbn [mbind result_bind]; [| done].
    intros [= <- <-]. simpl. split; [done |]. split; [done |].
    right. left. by eauto.
  - intros [= <- <-]. simpl. split; [done |]. split; [done |].
    right. right. done.
Qed.

(** What [count_done] does to the record. *)
Lemma count_done_cases d :
  count_done d
  = if d.(done_in_current_epoch) + 1 =? d.(num_sketches)
    then (set_current_put_epoch (d.(current_put_epoch) + 1)
            (set_done_in_current_epoch 0 d), [Sentinel])
    else (set_done_in_current_epoch (d.(done_in_current_epoch) + 1) d, []).
Proof. unfold count_done. simpl. by destruct (_ =? _). Qed.

Lemma read_epochs_snoc n h ev :
  read_epochs n (h ++ [ev]) = read_put n (read_epochs n h) ev.
Proof. unfold read_epochs. by rewrite foldl_app. Qed.

Lemma counters_inv d d' :
  counters d' = counters d ->
  d'.(current_pick_epoch) = d.(current_pick_epoch) /\
  d'.(current_put_epoch) = d.(current_put_epoch) /\
  d'.(current_sketch) = d.(current_sketch) /\
  d'.(done_in_current_epoch) = d.(done_in_current_epoch) /\
  d'.(num_sketches) = d.(num_sketches).
Proof. unfold counters. by intros [= -> -> -> -> ->]. Qed.

Lemma expected_counters d d' e :
  counters d' = counters d -> expected d' e = expected d e.
Proof.
  intros H. apply counters_inv in H as (H1 & H2 & H3 & H4 & H5).
  unfold expected. by rewrite H1, H2, H3, H4, H5.
Qed.

(** A move of worker [i] that changes neither the counters nor what the
    worker owes keeps the invariant. *)
Lemma bounded_inv_move n p i w w' d' lk :
  bounded_inv n p ->
  p.(workers) !! i = Some w ->
  counters d' = counters p.(shared) ->
  holds_item w'.(at_line) = holds_item w.(at_line) ->
  (holds_item w.(at_line) = true -> w'.(w_epoch) = w.(w_epoch)) ->
  has_put w'.(at_line) = has_put w.(at_line) ->
  (may_put w'.(at_line) = true ->
   may_put w.(at_line) = true \/ w'.(w_epoch) = p.(shared).(current_put_epoch)) ->
  bounded_inv n (update i w' d' lk p.(queue) p.(sent) p).
Proof.
  intros [Hnum Hslot Hdone Hep Hturn Hhold Hsent Hqueue] Hw Hc Hh He Hp Hm.
  pose proof (Forall_lookup_1 _ _ _ _ Hturn Hw) as Hwturn. simpl in Hwturn.
  pose proof (fun e => expected_counters _ _ e Hc) as Hexp.
  apply counters_inv in Hc as (H1 & H2 & H3 & H4 & H5).
  unfold update. constructor; simpl; rewrite ?H1, ?H2, ?H3, ?H4, ?H5; try done.
  - apply Forall_insert; [done |]. intros Hmay.
    destruct (Hm Hmay) as [Hold | ?]; [| done].
    rewrite <- (Hwturn Hold). apply He.
    destruct (at_line w); done.
  - intros e. rewrite Hexp, <- Hhold. unfold holders.
    rewrite (countb_insert _ _ _ _ _ Hw). rewrite Hh.
    destruct (holds_item (at_line w)); simpl; [| lia].
    rewrite He by done. lia.
  - rewrite Hsent. do 2 f_equal. unfold posted.
    rewrite (countb_insert _ _ _ _ _ Hw). rewrite Hp. lia.
Qed.

(** A change of the flags, of the lock or a [get] of the consumer. *)
Lemma bounded_inv_frame n p d' lk q :
  bounded_inv n p ->
  counters d' = counters p.(shared) ->
  (exists taken, p.(sent).*2 = taken ++ q) ->
  bounded_inv n (Pool d' lk q p.(sent) p.(workers)).
Proof.
  intros [Hnum Hslot Hdone Hep Hturn Hhold Hsent Hqueue] Hc Hq.
  pose proof (fun e => expected_counters _ _ e Hc) as Hexp.
  apply counters_inv in Hc as (H1 & H2 & H3 & H4 & H5).
  constructor; simpl; rewrite ?H1, ?H2, ?H3, ?H4, ?H5; try done.
  intros e. by rewrite Hexp.
Qed.

(** The block of lines 320-360. *)
Lemma bounded_inv_claim n p i w modules draw d' c :
  0 < n ->
  bounded_inv n p ->
  p.(workers) !! i = Some w ->
  w.(at_line) = Claiming ->
  claim modules draw p.(shared) = Ok (d', c) ->
  bounded_inv n
    (update i
       (Worker (if c.(worker_dying) then DrainQueue else Computing)
          c.(claimed_id) c.(claimed_sketch_id) c.(claimed_epoch)
          w.(pause_displayed))
       d' false p.(queue) p.(sent) p).
Proof.
  intros Hn Hinv Hw Hloc Hclaim.
  destruct (claim_cases _ _ _ _ _ Hclaim)
    as (Hepoch & _ & [[-> ->] | [(-> & Hlast & l & ->) | (-> & Hlast & ->)]]).
  { apply (bounded_inv_move n p i w); try done; rewrite Hloc; done. }
  - destruct Hinv as [Hnum Hslot Hdone Hep Hturn Hhold Hsent Hqueue].
    unfold update. constructor; simpl; try done; try lia.
    + apply Forall_insert; done.
    + intros e. specialize (Hhold e). unfold holders in *.
      rewrite (countb_insert _ _ _ _ _ Hw), Hloc. simpl.
      rewrite Hepoch. unfold expected in *. simpl. zcases; lia.
    + rewrite Hsent. do 2 f_equal. unfold posted.
      rewrite (countb_insert _ _ _ _ _ Hw), Hloc. simpl. lia.
  - destruct Hinv as [Hnum Hslot Hdone Hep Hturn Hhold Hsent Hqueue].
    unfold update. constructor; simpl; try done; try lia.
    + apply Forall_insert; done.
    + intros e. specialize (Hhold e). unfold holders in *.
      rewrite (countb_insert _ _ _ _ _ Hw), Hloc. simpl.
      rewrite Hepoch. unfold expected in *. simpl. zcases; lia.
    + rewrite Hsent. do 2 f_equal. unfold posted.
      rewrite (countb_insert _ _ _ _ _ Hw), Hloc. simpl. lia.
Qed.

Lemma countb_lookup P ws i w :
  ws !! i = Some w -> P w = true -> 1 <= countb P ws.
Proof.
  revert i. induction ws as [| v ws IH]; intros i; [done |].
  destruct i as [| i]; simpl.
  - intros [= ->] ->. pose proof (countb_nonneg P ws). lia.
  - intros Hw HP. pose proof (IH _ Hw HP). destruct (P v); lia.
Qed.

(** The workers that have put their item are among those that hold a slot
    of the put epoch. *)
Lemma posted_le_holders ws put :
  Forall (fun w => may_put w.(at_line) = true -> w.(w_epoch) = put) ws ->
  posted ws <= holders put ws.
Proof.
  intros Hturn. apply countb_le. eapply List.Forall_impl; [| exact Hturn].
  simpl. intros w Hw Hput. rewrite Hw by (by destruct (at_line w)).
  rewrite Z.eqb_refl. by destruct (at_line w).
Qed.

(** Line 404. *)
Lemma bounded_inv_put n p i w lk :
  0 < n ->
  bounded_inv n p ->
  p.(workers) !! i = Some w ->
  w.(at_line) = Putting ->
  bounded_inv n
    (update i (goto AcquireCount w) p.(shared) lk
       (p.(queue) ++ [Item w.(w_sketch_id)])
       (p.(sent) ++ [(w.(w_epoch), Item w.(w_sketch_id))]) p).
Proof.
  intros Hn [Hnum Hslot Hdone Hep Hturn Hhold Hsent Hqueue] Hw Hloc.
  pose proof (Forall_lookup_1 _ _ _ _ Hturn Hw) as Hput. simpl in Hput.
  rewrite Hloc in Hput. specialize (Hput eq_refl).
  assert (Forall (fun v => may_put (at_line v) = true ->
                           w_epoch v = current_put_epoch (shared p))
            (<[i := goto AcquireCount w]> (workers p))) as Hturn'.
  { apply Forall_insert; done. }
  assert (holders (current_put_epoch (shared p))
            (<[i := goto AcquireCount w]> (workers p))
          = holders (current_put_epoch (shared p)) (workers p)) as Hsame.
  { unfold holders. rewrite (countb_insert _ _ _ _ _ Hw), Hloc. simpl. lia. }
  assert (posted (<[i := goto AcquireCount w]> (workers p))
          = posted (workers p) + 1) as Hposted.
  { unfold posted. rewrite (countb_insert _ _ _ _ _ Hw), Hloc. simpl. lia. }
  assert (done_in_current_epoch (shared p) + posted (workers p) < n) as Hroom.
  { pose proof (posted_le_holders _ _ Hturn') as Hle.
    rewrite Hsame, Hposted, Hhold in Hle. unfold expected in Hle.
    rewrite Z.ltb_irrefl, Z.eqb_refl in Hle. zcases; lia. }
  unfold update. constructor; simpl; try done.
  - intros e. rewrite <- Hhold. unfold holders.
    rewrite (countb_insert _ _ _ _ _ Hw), Hloc. simpl. lia.
  - rewrite read_epochs_snoc, Hsent. simpl. rewrite Hput, Z.eqb_refl.
    destruct (Z.ltb_spec (done_in_current_epoch (shared p) + posted (workers p)) n);
      [| lia].
    simpl. rewrite Hposted. do 2 f_equal. lia.
  - destruct Hqueue as [taken Htaken]. exists taken.
    rewrite fmap_app, Htaken. simpl. by rewrite app_assoc.
Qed.

(** The block of lines 409-417. *)
Lemma bounded_inv_count n p i w d' ms :
  0 < n ->
  bounded_inv n p ->
  p.(workers) !! i = Some w ->
  w.(at_line) = Counting ->
  count_done p.(shared) = (d', ms) ->
  bounded_inv n
    (update i (goto CheckDie w) d' false
       (p.(queue) ++ ms)
       (p.(sent) ++ ((fun m => (w.(w_epoch), m)) <$> ms)) p).
Proof.
  intros Hn [Hnum Hslot Hdone Hep Hturn Hhold Hsent Hqueue] Hw Hloc.
  pose proof (Forall_lookup_1 _ _ _ _ Hturn Hw) as Hput. simpl in Hput.
  rewrite Hloc in Hput. specialize (Hput eq_refl).
  assert (posted (<[i := goto CheckDie w]> (workers p))
          = posted (workers p) - 1) as Hposted.
  { unfold posted. rewrite (countb_insert _ _ _ _ _ Hw), Hloc. simpl. lia. }
  assert (forall e, holders e (<[i := goto CheckDie w]> (workers p))
                    = holders e (workers p)
                      - (if e =? current_put_epoch (shared p) then 1 else 0))
    as Hless.
  { intros e. unfold holders. rewrite (countb_insert _ _ _ _ _ Hw), Hloc.
    simpl. rewrite Hput, (Z.eqb_sym e). lia. }
  assert (1 <= holders (current_put_epoch (shared p)) (workers p)) as Hone.
  { apply (countb_lookup _ _ i w Hw). by rewrite Hloc, Hput, Z.eqb_refl. }
  assert (1 <= posted (workers p)) as Hposted1.
  { apply (countb_lookup _ _ i w Hw). by rewrite Hloc. }
  pose proof (posted_le_holders _ _ Hturn) as Hle.
  rewrite count_done_cases, Hnum.
  destruct (Z.eqb_spec (done_in_current_epoch (shared p) + 1) n) as [Hfull | Hless'];
    intros [= <- <-].
  - (* the last item of the epoch: the sentinel goes out *)
    assert (current_put_epoch (shared p) < current_pick_epoch (shared p)) as Hlt.
    { rewrite Hhold in Hone. unfold expected in Hone.
      rewrite Z.ltb_irrefl, Z.eqb_refl in Hone. zcases; lia. }
    assert (holders (current_put_epoch (shared p)) (workers p) = 1) as Hjust.
    { rewrite Hhold. unfold expected. rewrite Z.ltb_irrefl, Z.eqb_refl.
      zcases; lia. }
    unfold update. constructor; simpl; try done; try lia.
    + (* nobody else has seen the turn of the closed epoch *)
      assert (Forall (fun v => (holds_item (at_line v)
                                && (w_epoch v =? current_put_epoch (shared p)))
                               = false)
                (<[i := goto CheckDie w]> (workers p))) as Hnone.
      { apply countb_zero. fold (holders (current_put_epoch (shared p))
                                   (<[i := goto CheckDie w]> (workers p))).
        rewrite Hless, Z.eqb_refl. lia. }
      assert (Forall (fun v => may_put (at_line v) = true ->
                               w_epoch v = current_put_epoch (shared p))
                (<[i := goto CheckDie w]> (workers p))) as Hturn'.
      { apply Forall_insert; done. }
      pose proof (List.Forall_and Hnone Hturn') as Hboth.
      eapply List.Forall_impl; [| exact Hboth]. simpl.
      intros v [Hv1 Hv2] Hmay. specialize (Hv2 Hmay).
      rewrite Hv2, Z.eqb_refl in Hv1. by destruct (at_line v).
    + intros e. rewrite Hless, Hhold. unfold expected. simpl. zcases; lia.
    + rewrite read_epochs_snoc, Hsent. simpl. rewrite Hput, Z.eqb_refl.
      destruct (Z.eqb_spec (done_in_current_epoch (shared p) + posted (workers p)) n);
        [| lia].
      simpl. rewrite Hposted. do 2 f_equal. lia.
    + destruct Hqueue as [taken Htaken]. exists taken.
      rewrite fmap_app, Htaken. simpl. by rewrite app_assoc.
  - unfold update. constructor; simpl; try done; try lia.
    + apply Forall_insert; done.
    + intros e. rewrite Hless, Hhold. unfold expected. simpl. zcases; lia.
    + rewrite app_nil_r, Hsent, Hposted. do 2 f_equal. lia.
    + destruct Hqueue as [taken Htaken]. exists taken.
      by rewrite !app_nil_r.
Qed.

(** Every move keeps the invariant of a stream with epochs. *)
Lemma exec_bounded modules maxsize n a p p' :
  0 < n ->
  bounded_inv n p ->
  exec modules maxsize a p = Some p' ->
  bounded_inv n p'.
Proof.
  intros Hn Hinv. destruct a as [i draw computed | | | |]; simpl.
  - unfold run_worker.
    destruct (workers p !! i) as [w |] eqn:Hw; simpl; [| done].
    destruct (at_line w) eqn:Hloc;
      try done;
      try solve [ repeat case_match; try done; intros [= <-];
                  apply (bounded_inv_move n p i w); try done;
                  simpl; rewrite ?Hloc; try done; auto ].
    + (* Claiming *)
      destruct (claim modules draw (shared p)) as [[d' c] |] eqn:Hclaim.
      * intros [= <-]. by apply (bounded_inv_claim n p i w modules draw).
      * intros [= <-]. apply (bounded_inv_move n p i w); try done;
          simpl; rewrite ?Hloc; done.
    + (* DrainQueue *)
      destruct (queue p) as [| m q] eqn:Hq; [| done].
      intros [= <-]. rewrite <- Hq.
      apply (bounded_inv_move n p i w); try done;
        simpl; rewrite ?Hloc; done.
    + (* ReadTurn *)
      intros [= <-]. apply (bounded_inv_move n p i w); try done;
        simpl; rewrite ?Hloc; try done.
      * by destruct (_ =? _).
      * by destruct (_ =? _).
      * destruct (Z.eqb_spec (current_put_epoch (shared p)) (w_epoch w));
          [auto | done].
    + (* Putting *)
      destruct (queue_full maxsize (queue p)); [done |].
      intros [= <-]. by apply bounded_inv_put.
    + (* Counting *)
      destruct (count_done (shared p)) as [d' ms] eqn:Hcount.
      pose proof (bounded_inv_count n p i w d' ms Hn Hinv Hw Hloc Hcount) as Hnew.
      destruct ms as [| m ms].
      * intros [= <-]. by rewrite !app_nil_r in Hnew.
      * destruct (queue_full maxsize (queue p)); [done |]. by intros [= <-].
  - intros [= <-]. apply (bounded_inv_frame n p); [done | done |].
    by destruct Hinv.
  - intros [= <-]. apply (bounded_inv_frame n p); [done | done |].
    by destruct Hinv.
  - intros [= <-]. apply (bounded_inv_frame n p); [done | done |].
    by destruct Hinv.
  - destruct (queue p) as [| m q] eqn:Hq; [done |].
    intros [= <-]. apply (bounded_inv_frame n p); [done | done |].
    destruct Hinv as [_ _ _ _ _ _ _ [taken Htaken]].
    exists (taken ++ [m]). rewrite Htaken, Hq. by rewrite <- app_assoc.
Qed.

(** Every move keeps the invariant of a stream without epochs. *)
Lemma exec_unbounded modules maxsize a p p' :
  unbounded_inv p ->
  exec modules maxsize a p = Some p' ->
  unbounded_inv p'.
Proof.
  intros [Hnum Hslot Hdone Hpick Hput Hsent].
  destruct a as [i draw computed | | | |]; simpl.
  - unfold run_worker.
    destruct (workers p !! i) as [w |] eqn:Hw; simpl; [| done].
    destruct (at_line w) eqn:Hloc;
      try done;
      try solve [ repeat case_match; try done; intros [= <-]; done ].
    + (* Claiming *)
      destruct (claim modules draw (shared p)) as [[d' c] |] eqn:Hclaim;
        intros [= <-]; [| done].
      destruct (claim_cases _ _ _ _ _ Hclaim)
        as (_ & _ & [[_ ->] | [(_ & Hlast & _) | (_ & _ & ->)]]);
        [done | lia |].
      constructor; simpl; try done; lia.
    + (* Putting *)
      destruct (queue_full maxsize (queue p)); [done |].
      intros [= <-]. constructor; simpl; try done.
      apply Forall_app. split; [done |]. by constructor.
    + (* Counting *)
      rewrite count_done_cases, Hnum.
      destruct (Z.eqb_spec (done_in_current_epoch (shared p) + 1) (-1)); [lia |].
      intros [= <-]. constructor; simpl; try done; lia.
  - by intros [= <-].
  - by intros [= <-].
  - by intros [= <-].
  - destruct (queue p); [done |]. by intros [= <-].
Qed.

(** What every move keeps holds along every schedule. *)
Lemma run_invariant modules maxsize (I : pool -> Prop) :
  (forall a p p', I p -> exec modules maxsize a p = Some p' -> I p') ->
  forall schedule p p',
    I p -> run modules maxsize schedule p = Some p' -> I p'.
Proof.
  intros Hstep. induction schedule as [| a schedule IH]; intros p p' Hp; simpl.
  - by intros [= <-].
  - destruct (exec modules maxsize a p) as [p1 |] eqn:Hexec; [| done].
    apply IH. by eapply Hstep.
Qed.

(** The record [stream] creates is that of a stream without epochs, for
    [num_sketches = -1], or that of a stream with [num_sketches > 0]
    sketches per epoch. *)
Lemma stream_cases cpu_count draw modules n num_epochs num_workers max_id s :
  stream cpu_count draw modules n num_epochs num_workers max_id
    = Ok s ->
  (n = -1 /\ unbounded_inv (start s)) \/
  (0 < n /\ bounded_inv n (start s)).
Proof.
  unfold stream.
  destruct (match resolve_num_workers _ _ return result Z with
            | Int z => Ok z | Float _ => Raise TypeError end) as [nw |];
    cbn [mbind result_bind]; [| done].
  destruct (match max_id return result Z with Some m => _ | None => _ end)
    as [mid |]; cbn [mbind result_bind]; [| done].
  destruct (Z.eqb_spec n (-1)) as [-> | Hne];
    cbn [mbind result_bind].
  - intros [= <-]. left. split; [done |]. by constructor.
  - unfold randint.
    destruct (Z.ltb_spec 0 n) as [Hpos | Hneg].
    2:{ by destruct (-1 <? 0) eqn:E. }
    destruct ((n <? 0) || (mid <=? 0)); cbn [mbind result_bind];
      [done |].
    intros [= <-]. right. split; [done |].
    assert (forall P, P fresh_worker = false ->
              countb P (workers (start
                (StreamSetup
                   (SharedData num_epochs mid false 0 0 0 0 n
                      (Some (to_int32 <$>
                               ((fun i => 0 + draw i `mod` (mid - 0))
                                  <$> seq 0 (Z.to_nat n)))) false)
                   (2 * nw) (if 0 <? nw then nw else 0)))) = 0) as Hzero.
    { intros P HP. simpl. by apply countb_replicate. }
    constructor; simpl; try done; try lia.
    + by apply Forall_replicate.
    + intros e. unfold holders. rewrite Hzero by done.
      unfold expected. simpl. zcases; lia.
    + unfold posted. rewrite Hzero by done. done.
    + by exists [].
Qed.

(** C2. In every state that any interleaving of the workers, of the
    calls of [pause], [resume] and [stop] and of the consumer reaches from
    the record [stream] has just set up, [current_put_epoch <=
    current_pick_epoch]. *)
Theorem put_epoch_le_pick_epoch cpu_count draw modules num_sketches num_epochs
    num_workers max_id s p :
  stream cpu_count draw modules num_sketches num_epochs num_workers max_id
    = Ok s ->
  reachable modules s p ->
  p.(shared).(current_put_epoch) <= p.(shared).(current_pick_epoch).
Proof.
  intros Hstream [schedule Hrun].
  destruct (stream_cases _ _ _ _ _ _ _ _ Hstream) as [[_ Hinv] | [Hpos Hinv]].
  - pose proof (run_invariant modules _ unbounded_inv
                  (exec_unbounded modules _) _ _ _ Hinv Hrun) as [].
    lia.
  - pose proof (run_invariant modules _ (bounded_inv num_sketches)
                  (fun a q q' => exec_bounded modules _ _ a q q' Hpos)
                  _ _ _ Hinv Hrun) as [].
    lia.
Qed.



(** C4, at the input where the code departs from it: with
    [num_sketches = -2], whatever the other arguments, [stream] raises
    (the list of the epoch is drawn with the size [-1] the record
    stores); with [num_sketches = -1] the record stores [-1] and no list. *)
Theorem stream_negative_items cpu_count draw modules num_epochs num_workers
    max_id :
  (exists e,
     stream cpu_count draw modules (-2) num_epochs num_workers max_id
       = Raise e) /\
  (forall s,
     stream cpu_count draw modules (-1) num_epochs num_workers max_id = Ok s ->
     s.(setup_shared).(num_sketches) = -1 /\
     s.(setup_shared).(sketch_list) = None).
Proof.
  unfold stream. split.
  - destruct (match resolve_num_workers _ _ return result Z with
              | Int z => Ok z | Float _ => Raise TypeError end) as [nw |];
      cbn [mbind result_bind]; [| by eauto].
    destruct (match max_id return result Z with Some m => _ | None => _ end)
      as [mid |]; cbn [mbind result_bind]; [| by eauto].
    simpl. by eauto.
  - intros s.
    destruct (match resolve_num_workers _ _ return result Z with
              | Int z => Ok z | Float _ => Raise TypeError end) as [nw |];
      cbn [mbind result_bind]; [| done].
    destruct (match max_id return result Z with Some m => _ | None => _ end)
      as [mid |]; cbn [mbind result_bind]; [| done].
    simpl. by intros [= <-].
Qed.

(** In a stream without epochs the id a worker claims lies below the
    number of modules, or below [int16_max] when that is not known: the
    bound of the record is not read. *)
Lemma claim_unbounded_range modules draw d d' c :
  d.(num_sketches) = -1 ->
  claim modules draw d = Ok (d', c) ->
  0 <= c.(claimed_sketch_id) < default int16_max modules.(modules_len).
Proof.
  intros Hn. unfold claim. rewrite Hn. simpl (-1 =? -1).
  cbv iota. unfold randint. simpl (1 <? 0). cbn [orb].
  replace (match modules_len modules with Some l => l | None => int16_max end)
    with (default int16_max (modules_len modules)) by (by destruct (modules_len modules)).
  set (bound := default int16_max (modules_len modules)).
  destruct (Z.leb_spec bound 0) as [| Hpos]; cbn [mbind result_bind]; [done |].
  change (Z.to_nat 1) with 1%nat. simpl seq. simpl fmap.
  unfold tensor_index. simpl.
  assert (0 <= draw 0%nat `mod` (bound - 0) < bound).
  { rewrite Z.sub_0_r. apply Z.mod_pos_bound. lia. }
  repeat case_match; try done; intros [= <- <-]; simpl; lia.
Qed.

(** C3, at an input where the code departs from it: a stream without
    epochs over 100 modules, started with [max_id = 10]; the first worker
    that claims a slot draws 50, which is not below 10. *)
Theorem unbounded_claim_ignores_max_id :
  stream 4 ex_draw ex_modules (-1) 1 1 (Some 10) = Ok ex_setup_unbounded /\
  ex_setup_unbounded.(setup_shared).(max_id) = 10 /\
  run ex_modules ex_setup_unbounded.(setup_maxsize)
    (replicate 3 (Run 0 ex_draw true)) (start ex_setup_unbounded)
    = Some ex_pool_unbounded /\
  ex_pool_unbounded.(workers) !! 0%nat = Some (Worker Computing 0 50 0 false).
Proof. repeat split. Qed.

(* ===================================================================== *)
(** * The theorems at work on examples *)
(* ===================================================================== *)

Lemma ex_batches_nonempty (bs : list (list Z)) :
  forallb (fun b => negb (bool_decide (b = []))) bs = true ->
  Forall (fun b => b <> []) bs.
Proof.
  induction bs as [| b bs IH]; simpl; [constructor |].
  intros [Hb Hbs]%andb_prop. constructor; [| by apply IH].
  apply negb_true_iff in Hb. by apply bool_decide_eq_false in Hb.
Qed.

Lemma ex_reachable : reachable ex_modules ex_setup ex_pool.
Proof. by exists ex_schedule. Qed.

(** Two workers and one sketch per epoch: worker 1 claims the slot of
    epoch 1 while worker 0 still computes that of epoch 0; it finds
    [current_put_epoch] at 0 and goes on waiting, nothing is put. *)
Lemma ex_worker_ahead_waits :
  let s := StreamSetup (SharedData 3 5 false 0 0 0 0 1 (Some [0]) false) 4 2 in
  stream 4 ex_draw ex_modules 1 3 2 (Some 5) = Ok s /\
  run ex_modules 4
    (replicate 3 (Run 0 ex_draw true) ++ replicate 6 (Run 1 ex_draw true))
    (start s)
  = Some (Pool (SharedData 3 5 false 2 0 0 0 1 (Some [0]) false) false [] []
            [Worker Computing 0 0 0 false;
             Worker CheckDieWaiting 0 0 1 false]).
Proof. split; reflexivity. Qed.


Lemma put_epoch_le_pick_epoch_witness :
  stream 4 ex_draw ex_modules 2 1 1 (Some 5) = Ok ex_setup /\
  reachable ex_modules ex_setup ex_pool /\
  ex_pool.(shared).(current_put_epoch) <= ex_pool.(shared).(current_pick_epoch).
Proof.
  split; [reflexivity |]. split; [exact ex_reachable |].
  apply (put_epoch_le_pick_epoch 4 ex_draw ex_modules 2 1 1 (Some 5)
           ex_setup ex_pool); [reflexivity | exact ex_reachable].
Defined.






Lemma no_default_data_error_witness :
  Sketcher_call ex_Percentile ex_uninit (mkSketcher None tt (Some 3))
    (OneModule ex_module) None None
  = Raise NoDefaultDataError.
Proof.
  apply (proj1 (no_default_data_error ex_Percentile ex_uninit
                  (mkSketcher None tt (Some 3)) (OneModule ex_module)
                  None None)).
  split; reflexivity.
Defined.

Lemma no_default_data_error_counterexample :
  call_arguments (ex_sketcher (Some 3)) (Some SrcOther) None
    = Raise UnsupportedSourceError /\
  Sketcher_call ex_Percentile ex_uninit (ex_sketcher (Some 3))
    (OneModule ex_module) (Some SrcOther) None
  = Raise UnsupportedSourceError.
Proof. split; reflexivity. Qed.




Lemma stream_negative_items_witness :
  stream 4 ex_draw ex_modules (-1) 1 1 (Some 10) = Ok ex_setup_unbounded /\
  ex_setup_unbounded.(setup_shared).(num_sketches) = -1 /\
  ex_setup_unbounded.(setup_shared).(sketch_list) = None.
Proof.
  split; [reflexivity |].
  apply (proj2 (stream_negative_items 4 ex_draw ex_modules 1 1 (Some 10))).
  reflexivity.
Defined.

(* ===================================================================== *)
(** * More properties of the worker pool *)
(* ===================================================================== *)

(** ** The queue *)

(** The queue never holds more messages than its [maxsize]. *)
Lemma exec_capacity modules maxsize a p p' :
  0 < maxsize ->
  len p.(queue) <= maxsize ->
  exec modules maxsize a p = Some p' ->
  len p'.(queue) <= maxsize.
Proof.
  intros Hmax Hlen. destruct a as [i draw computed | | | |]; simpl.
  - unfold run_worker.
    destruct (workers p !! i) as [w |] eqn:Hw; simpl; [| done].
    assert (queue_full maxsize (queue p) = false ->
            forall m, len (queue p ++ [m]) <= maxsize) as Hroom.
    { unfold queue_full, len. intros Hf m. rewrite length_app. simpl.
      destruct (Z.ltb_spec 0 maxsize); [| lia].
      destruct (Z.leb_spec maxsize (Z.of_nat (length (queue p)))); [done | lia]. }
    destruct (at_line w) eqn:Hloc; try done;
      try solve [ repeat case_match; try done; intros [= <-]; simpl; try done;
                  unfold len in *; simpl; lia ].
    + destruct (queue_full maxsize (queue p)) eqn:Hf; [done |].
      intros [= <-]. simpl. by apply Hroom.
    + destruct (count_done (shared p)) as [d' ms] eqn:Hcount.
      rewrite count_done_cases in Hcount.
      destruct (_ =? _); injection Hcount as <- <-.
      * destruct (queue_full maxsize (queue p)) eqn:Hf; [done |].
        intros [= <-]. simpl. by apply Hroom.
      * by intros [= <-].
  - by intros [= <-].
  - by intros [= <-].
  - by intros [= <-].
  - destruct (queue p) as [| m q] eqn:Hq; [done |]. intros [= <-]. simpl.
    unfold len in *. simpl in Hlen. lia.
Qed.

(** The queue holds the last messages of the history. *)
Lemma exec_queue_history modules maxsize a p p' :
  (exists taken, p.(sent).*2 = taken ++ p.(queue)) ->
  exec modules maxsize a p = Some p' ->
  exists taken, p'.(sent).*2 = taken ++ p'.(queue).
Proof.
  intros [taken Htaken]. destruct a as [i draw computed | | | |]; simpl.
  - unfold run_worker.
    destruct (workers p !! i) as [w |] eqn:Hw; simpl; [| done].
    assert (forall ev, exists taken',
              (sent p ++ [ev]).*2 = taken' ++ queue p ++ [ev.2]) as Hput.
    { intros ev. exists taken. rewrite fmap_app, Htaken. simpl.
      by rewrite app_assoc. }
    destruct (at_line w) eqn:Hloc; try done;
      try solve [ repeat case_match; try done; intros [= <-]; simpl;
                  try (by exists taken);
                  exists taken; by (etrans; [exact Htaken |]; f_equal) ].
    + destruct (queue_full maxsize (queue p)); [done |].
      intros [= <-]. simpl. apply (Hput (_, _)).
    + destruct (count_done (shared p)) as [d' ms] eqn:Hcount.
      rewrite count_done_cases in Hcount.
      destruct (_ =? _); injection Hcount as <- <-.
      * destruct (queue_full maxsize (queue p)); [done |].
        intros [= <-]. simpl. apply (Hput (_, _)).
      * intros [= <-]. by exists taken.
  - intros [= <-]. by exists taken.
  - intros [= <-]. by exists taken.
  - intros [= <-]. by exists taken.
  - destruct (queue p) as [| m q] eqn:Hq; [done |]. intros [= <-]. simpl.
    exists (taken ++ [m]). by rewrite Htaken, <- app_assoc.
Qed.

Lemma stream_sizes cpu_count draw modules n num_epochs num_workers max_id s :
  stream cpu_count draw modules n num_epochs num_workers max_id = Ok s ->
  0 < s.(setup_processes) ->
  s.(setup_maxsize) = 2 * s.(setup_processes).
Proof.
  unfold stream.
  destruct (match resolve_num_workers _ _ return result Z with
            | Int z => Ok z | Float _ => Raise TypeError end) as [nw |];
    cbn [mbind result_bind]; [| done].
  destruct (match max_id return result Z with Some m => _ | None => _ end)
    as [mid |]; cbn [mbind result_bind]; [| done].
  destruct (if n =? -1 then _ else _) as [sl |]; cbn [mbind result_bind];
    [| done].
  intros [= <-]. simpl. destruct (Z.ltb_spec 0 nw); lia.
Qed.

(** X1. As long as workers were started, the queue of a stream never holds
    more than twice as many messages as there are workers. *)
Theorem queue_within_maxsize cpu_count draw modules n num_epochs num_workers
    max_id s p :
  stream cpu_count draw modules n num_epochs num_workers max_id = Ok s ->
  0 < s.(setup_processes) ->
  reachable modules s p ->
  len p.(queue) <= 2 * s.(setup_processes).
Proof.
  intros Hs Hpos [schedule Hrun].
  pose proof (stream_sizes _ _ _ _ _ _ _ _ Hs Hpos) as Hsize.
  rewrite <- Hsize.
  apply (run_invariant modules (setup_maxsize s)
           (fun q => len (queue q) <= setup_maxsize s)) with schedule (start s);
    [| simpl; unfold len; simpl; lia | done].
  intros a q q'. apply exec_capacity. lia.
Qed.

(** X2. A stream without epochs never puts a sentinel: both epochs stay
    0, the history of the [put] calls holds items only, and so does the
    queue. *)
Theorem unbounded_never_sentinel cpu_count draw modules num_epochs num_workers
    max_id s p :
  stream cpu_count draw modules (-1) num_epochs num_workers max_id = Ok s ->
  reachable modules s p ->
  p.(shared).(current_pick_epoch) = 0 /\
  p.(shared).(current_put_epoch) = 0 /\
  Forall (fun ev => ev.2 <> Sentinel) p.(sent) /\
  Forall (fun m => m <> Sentinel) p.(queue).
Proof.
  intros Hs [schedule Hrun].
  destruct (stream_cases _ _ _ _ _ _ _ _ Hs) as [[_ Hinv] | [Hpos _]]; [| lia].
  pose proof (run_invariant modules _ unbounded_inv
                (exec_unbounded modules _) _ _ _ Hinv Hrun)
    as [_ _ _ Hpick Hput Hsent].
  assert (exists taken, (sent p).*2 = taken ++ queue p) as [taken Htaken].
  { apply (run_invariant modules (setup_maxsize s)
             (fun q => exists taken, (sent q).*2 = taken ++ queue q))
      with schedule (start s); [| by exists [] | done].
    intros a q q'. apply exec_queue_history. }
  repeat split; try done.
  assert (Forall (fun m => m <> Sentinel) (sent p).*2) as Hall.
  { apply Forall_fmap. eapply List.Forall_impl; [| exact Hsent]. done. }
  rewrite Htaken in Hall. by apply Forall_app in Hall as [_ ?].
Qed.

(** ** The lock *)

Lemma countb_unique P ws i j wi wj :
  countb P ws <= 1 ->
  ws !! i = Some wi -> P wi = true ->
  ws !! j = Some wj -> P wj = true ->
  i = j.
Proof.
  revert i j. induction ws as [| v ws IH]; intros i j; [done |].
  simpl. pose proof (countb_nonneg P ws) as Hge.
  destruct i as [| i], j as [| j]; simpl; try done.
  - intros Hle [= ->] HPv Hj HP. rewrite HPv in Hle.
    pose proof (countb_lookup P ws j wj Hj HP). lia.
  - intros Hle Hi HP [= ->] HPv. rewrite HPv in Hle.
    pose proof (countb_lookup P ws i wi Hi HP). lia.
  - intros Hle Hi HPi Hj HPj. f_equal. apply IH; try done.
    destruct (P v); lia.
Qed.

Lemma exec_lock modules maxsize a p p' :
  countb (fun w => lock_held w.(at_line)) p.(workers)
    = (if p.(locked) then 1 else 0) ->
  exec modules maxsize a p = Some p' ->
  countb (fun w => lock_held w.(at_line)) p'.(workers)
    = (if p'.(locked) then 1 else 0).
Proof.
  intros Hinv. destruct a as [i draw computed | | | |]; simpl.
  - unfold run_worker.
    destruct (workers p !! i) as [w |] eqn:Hw; simpl; [| done].
    pose proof (countb_lookup (fun w => lock_held (at_line w)) _ i w Hw) as Hin.
    destruct (at_line w) eqn:Hloc; try done;
      try solve [ repeat case_match; try done; intros [= <-]; simpl;
                  rewrite (countb_insert _ _ _ _ _ Hw); simpl;
                  rewrite ?Hloc; simpl in *; rewrite ?Hloc in *;
                  repeat case_match; simpl in *; lia ].
  - by intros [= <-].
  - by intros [= <-].
  - by intros [= <-].
  - destruct (queue p); [done |]. by intros [= <-].
Qed.

(** X3. The lock is exclusive: in every state of a stream exactly one
    worker is inside a [with getlock()] block (or died inside one) when the
    lock is taken, and none when it is free. *)
Theorem lock_is_exclusive cpu_count draw modules n num_epochs num_workers
    max_id s p :
  stream cpu_count draw modules n num_epochs num_workers max_id = Ok s ->
  reachable modules s p ->
  countb (fun w => lock_held w.(at_line)) p.(workers)
    = (if p.(locked) then 1 else 0) /\
  forall i j wi wj,
    p.(workers) !! i = Some wi -> lock_held wi.(at_line) = true ->
    p.(workers) !! j = Some wj -> lock_held wj.(at_line) = true ->
    i = j.
Proof.
  intros _ [schedule Hrun].
  assert (countb (fun w => lock_held (at_line w)) (workers p)
          = (if locked p then 1 else 0)) as Hcount.
  { apply (run_invariant modules (setup_maxsize s)
             (fun q => countb (fun w => lock_held (at_line w)) (workers q)
                       = (if locked q then 1 else 0)))
      with schedule (start s); [| by apply countb_replicate | done].
    intros a q q'. apply exec_lock. }
  split; [done |]. intros i j wi wj Hi Hwi Hj Hwj.
  apply (countb_unique (fun w => lock_held (at_line w)) (workers p) i j wi wj);
    try done.
  rewrite Hcount. destruct (locked p); lia.
Qed.

(** ** What [claim] and [count_done] leave alone *)

Lemma claim_frame modules draw d d' c :
  claim modules draw d = Ok (d', c) ->
  d'.(num_epochs) = d.(num_epochs) /\
  d'.(max_id) = d.(max_id) /\
  d'.(num_sketches) = d.(num_sketches) /\
  d'.(pause) = d.(pause) /\
  d'.(die) = d.(die) /\
  d'.(current_put_epoch) = d.(current_put_epoch) /\
  d'.(done_in_current_epoch) = d.(done_in_current_epoch) /\
  c.(worker_dying) = (d.(num_epochs) <=? d.(current_pick_epoch)).
Proof.
  unfold claim.
  destruct (if num_sketches d =? -1 then _ else _) as [sketch_id |];
    cbn [mbind result_bind]; [| done].
  destruct (num_epochs d <=? current_pick_epoch d).
  { by intros [= <- <-]. }
  destruct (current_sketch d =? num_sketches d - 1).
  - destruct (randint draw 0 (max_id d) (num_sketches d)) as [l |];
      cbn [mbind result_bind]; [| done].
    by intros [= <- <-].
  - by intros [= <- <-].
Qed.

Lemma count_done_frame d :
  (count_done d).1.(num_epochs) = d.(num_epochs) /\
  (count_done d).1.(max_id) = d.(max_id) /\
  (count_done d).1.(num_sketches) = d.(num_sketches) /\
  (count_done d).1.(pause) = d.(pause) /\
  (count_done d).1.(die) = d.(die) /\
  (count_done d).1.(current_pick_epoch) = d.(current_pick_epoch) /\
  (count_done d).1.(current_sketch) = d.(current_sketch) /\
  (count_done d).1.(sketch_list) = d.(sketch_list).
Proof. rewrite count_done_cases. by destruct (_ =? _). Qed.

(** ** Messages counted *)

Lemma count_put_snoc P h ev :
  count_put P (h ++ [ev]) = count_put P h + (if P ev.2 then 1 else 0).
Proof.
  induction h as [| x h IH]; simpl; [lia |]. rewrite IH. lia.
Qed.

Lemma count_put_nonneg P h : 0 <= count_put P h.
Proof. induction h as [| x h IH]; simpl; [lia | destruct (P x.2); lia]. Qed.

Lemma countb_le_length P ws : countb P ws <= len ws.
Proof.
  unfold len. induction ws as [| w ws IH]; simpl; [lia | destruct (P w); lia].
Qed.

Lemma run_workers_length modules maxsize schedule :
  forall p p',
    run modules maxsize schedule p = Some p' ->
    length p'.(workers) = length p.(workers).
Proof.
  induction schedule as [| a schedule IH]; intros p p'; simpl.
  - by intros [= <-].
  - destruct (exec modules maxsize a p) as [p1 |] eqn:Hexec; [| done].
    intros Hrun. rewrite (IH _ _ Hrun). clear IH Hrun.
    destruct a as [i draw computed | | | |]; simpl in Hexec.
    + unfold run_worker in Hexec.
      destruct (workers p !! i) as [w |] eqn:Hw; simpl in Hexec; [| done].
      revert Hexec. unfold update.
      repeat case_match; try done; intros [= <-]; simpl;
        by rewrite length_insert.
    + by injection Hexec as <-.
    + by injection Hexec as <-.
    + by injection Hexec as <-.
    + destruct (queue p); [done |]. by injection Hexec as <-.
Qed.

(** ** [stop] and [pause] *)

(** Once ['die'] is set, no move unsets it, and every item put is paid for
    by a worker that cannot put any more. *)
Lemma exec_after_stop modules maxsize a p p' :
  p.(shared).(die) = true ->
  exec modules maxsize a p = Some p' ->
  p'.(shared).(die) = true /\
  items_put p'.(sent) + countb (fun w => puts_after_stop w.(at_line)) p'.(workers)
  <= items_put p.(sent) + countb (fun w => puts_after_stop w.(at_line)) p.(workers).
Proof.
  intros Hdie. destruct a as [i draw computed | | | |]; simpl.
  - unfold run_worker.
    destruct (workers p !! i) as [w |] eqn:Hw; simpl; [| done].
    rewrite Hdie.
    destruct (at_line w) eqn:Hloc; try done;
      try solve [ repeat case_match; try done; intros [= <-]; simpl;
                  rewrite (countb_insert _ _ _ _ _ Hw); simpl;
                  rewrite ?Hloc; simpl; (split; [done | lia]) ].
    + (* Claiming *)
      destruct (claim modules draw (shared p)) as [[d' c] |] eqn:Hclaim;
        intros [= <-]; simpl; rewrite (countb_insert _ _ _ _ _ Hw), Hloc; simpl.
      * destruct (claim_frame _ _ _ _ _ Hclaim) as (_ & _ & _ & _ & -> & _).
        split; [done |]. destruct (worker_dying c); simpl; lia.
      * split; [done | lia].
    + (* Putting *)
      destruct (queue_full maxsize (queue p)); [done |].
      intros [= <-]. simpl. unfold items_put.
      rewrite count_put_snoc, (countb_insert _ _ _ _ _ Hw), Hloc. simpl.
      split; [done | lia].
    + (* Counting *)
      pose proof (count_done_frame (shared p)) as (_ & _ & _ & _ & Hd & _).
      destruct (count_done (shared p)) as [d' ms] eqn:Hcount.
      simpl in Hd. rewrite count_done_cases in Hcount.
      destruct (_ =? _); injection Hcount as <- <-.
      * destruct (queue_full maxsize (queue p)); [done |].
        intros [= <-]. simpl. unfold items_put.
        rewrite count_put_snoc, (countb_insert _ _ _ _ _ Hw), Hloc. simpl.
        split; [done | lia].
      * intros [= <-]. simpl. rewrite (countb_insert _ _ _ _ _ Hw), Hloc.
        simpl. split; [done | lia].
  - by intros [= <-].
  - by intros [= <-].
  - by intros [= <-].
  - destruct (queue p); [done |]. by intros [= <-].
Qed.

(** X4. After [stop] every worker puts at most one more item, whatever
    the schedule and whatever [pause] and [resume] calls follow, and
    ['die'] stays in the record. *)
Theorem stop_bounds_output modules maxsize schedule p p' :
  p.(shared).(die) = true ->
  run modules maxsize schedule p = Some p' ->
  p'.(shared).(die) = true /\
  items_put p'.(sent) <= items_put p.(sent) + len p.(workers).
Proof.
  intros Hdie Hrun.
  pose proof (countb_le_length (fun w => puts_after_stop (at_line w)) (workers p))
    as Hle.
  pose proof (countb_nonneg (fun w => puts_after_stop (at_line w)) (workers p'))
    as Hge.
  assert (die (shared p') = true /\
          items_put (sent p')
            + countb (fun w => puts_after_stop (at_line w)) (workers p')
          <= items_put (sent p)
             + countb (fun w => puts_after_stop (at_line w)) (workers p))
    as [Hdie' Hpot]; [| split; [done | lia]].
  apply (run_invariant modules maxsize
           (fun q => die (shared q) = true /\
                     items_put (sent q)
                       + countb (fun w => puts_after_stop (at_line w)) (workers q)
                     <= items_put (sent p)
                        + countb (fun w => puts_after_stop (at_line w)) (workers p)))
    with schedule p; [| split; [done | lia] | done].
  intros a q q' [Hq Hbound] Hexec.
  destruct (exec_after_stop _ _ _ _ _ Hq Hexec). split; [done | lia].
Qed.

(** While ['pause'] is set, a worker that comes to the head of its loop
    claims nothing. *)
Lemma exec_while_paused modules maxsize a p p' :
  a <> CallResume ->
  p.(shared).(pause) = true ->
  exec modules maxsize a p = Some p' ->
  p'.(shared).(pause) = true /\
  items_put p'.(sent) + countb (fun w => puts_while_paused w.(at_line)) p'.(workers)
  <= items_put p.(sent) + countb (fun w => puts_while_paused w.(at_line)) p.(workers).
Proof.
  intros Hres Hpause. destruct a as [i draw computed | | | |]; simpl; try done.
  - unfold run_worker.
    destruct (workers p !! i) as [w |] eqn:Hw; simpl; [| done].
    rewrite Hpause.
    destruct (at_line w) eqn:Hloc; try done;
      try solve [ repeat case_match; try done; intros [= <-]; simpl;
                  rewrite (countb_insert _ _ _ _ _ Hw); simpl;
                  rewrite ?Hloc; simpl; (split; [done | lia]) ].
    + (* Claiming *)
      destruct (claim modules draw (shared p)) as [[d' c] |] eqn:Hclaim;
        intros [= <-]; simpl; rewrite (countb_insert _ _ _ _ _ Hw), Hloc; simpl.
      * destruct (claim_frame _ _ _ _ _ Hclaim) as (_ & _ & _ & -> & _).
        split; [done |]. destruct (worker_dying c); simpl; lia.
      * split; [done | lia].
    + (* Putting *)
      destruct (queue_full maxsize (queue p)); [done |].
      intros [= <-]. simpl. unfold items_put.
      rewrite count_put_snoc, (countb_insert _ _ _ _ _ Hw), Hloc. simpl.
      split; [done | lia].
    + (* Counting *)
      pose proof (count_done_frame (shared p)) as (_ & _ & _ & Hd & _).
      destruct (count_done (shared p)) as [d' ms] eqn:Hcount.
      simpl in Hd. rewrite count_done_cases in Hcount.
      destruct (_ =? _); injection Hcount as <- <-.
      * destruct (queue_full maxsize (queue p)); [done |].
        intros [= <-]. simpl. unfold items_put.
        rewrite count_put_snoc, (countb_insert _ _ _ _ _ Hw), Hloc. simpl.
        split; [done | lia].
      * intros [= <-]. simpl. rewrite (countb_insert _ _ _ _ _ Hw), Hloc.
        simpl. split; [done | lia].
  - by intros [= <-].
  - by intros [= <-].
  - destruct (queue p); [done |]. by intros [= <-].
Qed.

(** X5. While a stream is paused (no [resume] in the schedule) every
    worker puts at most one more item: the one it had claimed, or was
    about to claim, when [pause] was called. *)
Theorem pause_bounds_output modules maxsize schedule p p' :
  p.(shared).(pause) = true ->
  no_resume schedule = true ->
  run modules maxsize schedule p = Some p' ->
  p'.(shared).(pause) = true /\
  items_put p'.(sent) <= items_put p.(sent) + len p.(workers).
Proof.
  intros Hpause Hno Hrun.
  pose proof (countb_le_length (fun w => puts_while_paused (at_line w)) (workers p))
    as Hle.
  pose proof (countb_nonneg (fun w => puts_while_paused (at_line w)) (workers p'))
    as Hge.
  assert (pause (shared p') = true /\
          items_put (sent p')
            + countb (fun w => puts_while_paused (at_line w)) (workers p')
          <= items_put (sent p)
             + countb (fun w => puts_while_paused (at_line w)) (workers p))
    as [Hp' Hpot]; [| split; [done | lia]].
  clear Hle Hge.
  set (K := items_put (sent p)
            + countb (fun w => puts_while_paused (at_line w)) (workers p)).
  assert (items_put (sent p)
            + countb (fun w => puts_while_paused (at_line w)) (workers p) <= K)
    as Hstart by (unfold K; lia).
  clearbody K. revert p Hpause Hno Hrun Hstart.
  induction schedule as [| a schedule IH]; intros p Hpause Hno; simpl.
  - intros [= <-]. done.
  - simpl in Hno. apply andb_prop in Hno as [Ha Hno].
    destruct (exec modules maxsize a p) as [p1 |] eqn:Hexec; [| done].
    intros Hrun Hstart.
    destruct (exec_while_paused modules maxsize a p p1) as [Hp1 Hb];
      [by destruct a | done | done |].
    apply (IH p1); try done. lia.
Qed.

(** ** The number of epochs *)

Lemma exec_epochs modules maxsize N a p p' :
  epochs_inv N p ->
  exec modules maxsize a p = Some p' ->
  epochs_inv N p'.
Proof.
  intros (HN & Hpick & Hws & Hsent).
  destruct a as [i draw computed | | | |]; simpl.
  - unfold run_worker.
    destruct (workers p !! i) as [w |] eqn:Hw; simpl; [| done].
    pose proof (Forall_lookup_1 _ _ _ _ Hws Hw) as Hfact. simpl in Hfact.
    destruct (at_line w) eqn:Hloc; try done;
      try solve [ repeat case_match; try done; intros [= <-];
                  (split; [done |]); (split; [done |]); (split; [| done]);
                  simpl; (apply Forall_insert; [done |]); simpl;
                  first [ done | intros _; by apply Hfact ] ].
    + (* Claiming *)
      destruct (claim modules draw (shared p)) as [[d' c] |] eqn:Hclaim;
        intros [= <-].
      2:{ repeat split; try done. simpl. by apply Forall_insert. }
      destruct (claim_frame _ _ _ _ _ Hclaim) as (HN' & _ & _ & _ & _ & _ & _ & Hdy).
      destruct (claim_cases _ _ _ _ _ Hclaim)
        as (Hepoch & _ & [[Hd ->] | [(Hd & _ & l & ->) | (Hd & _ & ->)]]);
        rewrite Hd in *; simpl.
      * repeat split; try done. simpl. by apply Forall_insert.
      * symmetry in Hdy. apply Z.leb_gt in Hdy.
        repeat split; try done; simpl; [lia |].
        apply Forall_insert; [done |]. simpl. intros _. lia.
      * symmetry in Hdy. apply Z.leb_gt in Hdy.
        repeat split; try done; simpl.
        apply Forall_insert; [done |]. simpl. intros _. lia.
    + (* Putting *)
      destruct (queue_full maxsize (queue p)); [done |].
      intros [= <-]. repeat split; try done; simpl.
      * apply Forall_insert; [done |]. simpl. intros _. by apply Hfact.
      * apply Forall_app. split; [done |]. constructor; [| done].
        simpl. by apply Hfact.
    + (* Counting *)
      pose proof (count_done_frame (shared p)) as (HN' & _ & _ & _ & _ & Hp' & _).
      destruct (count_done (shared p)) as [d' ms] eqn:Hcount.
      simpl in HN', Hp'.
      assert (ms = [] \/ ms = [Sentinel]) as Hms.
      { rewrite count_done_cases in Hcount.
        destruct (_ =? _); injection Hcount as <- <-; auto. }
      destruct Hms as [-> | ->].
      * intros [= <-]. repeat split; simpl; try done; try lia.
        by apply Forall_insert.
      * destruct (queue_full maxsize (queue p)); [done |].
        intros [= <-]. repeat split; simpl; try done; try lia.
        -- by apply Forall_insert.
        -- apply Forall_app. split; [done |]. constructor; [| done].
           simpl. by apply Hfact.
  - by intros [= <-].
  - by intros [= <-].
  - by intros [= <-].
  - destruct (queue p); [done |]. by intros [= <-].
Qed.

(** The history read as epochs gives the numbers of sentinels and of
    items put. *)
Lemma read_epochs_counts n N h :
  0 <= n ->
  Forall (fun ev => ev.1 < N) h ->
  forall e c,
    read_epochs n h = Some (e, c) ->
    sentinels_put h = e /\ items_put h = n * e + c /\
    0 <= c <= n /\ 0 <= e <= Z.max 0 N /\ (0 < c -> e < N).
Proof.
  intros Hn. induction h as [| ev h IH] using rev_ind; intros Hall e c.
  - unfold read_epochs. simpl. intros [= <- <-].
    unfold sentinels_put, items_put. simpl. lia.
  - apply Forall_app in Hall as [Hh Hev].
    apply List.Forall_inv in Hev.
    rewrite read_epochs_snoc.
    destruct (read_epochs n h) as [[e0 c0] |]; [| done].
    destruct (IH Hh e0 c0 eq_refl) as (Hs & Hi & Hc & He & Hlast).
    unfold sentinels_put, items_put in *. rewrite !count_put_snoc.
    destruct ev as [e' [id |]]; simpl in *.
    + destruct (Z.eqb_spec e' e0); simpl; [| done].
      destruct (Z.ltb_spec c0 n); [| done].
      intros [= <- <-]. subst e'. lia.
    + destruct (Z.eqb_spec e' e0); simpl; [| done].
      destruct (Z.eqb_spec c0 n); [| done].
      intros [= <- <-]. subst e'. lia.
Qed.

(** X6. A stream of [num_epochs] epochs of [n > 0] sketches puts exactly
    [current_put_epoch] sentinels, at most [num_epochs] of them, and at
    most [n * num_epochs] items; every message it puts comes from a worker
    of an epoch below [num_epochs]. *)
Theorem bounded_stream_output cpu_count draw modules n num_epochs num_workers
    max_id s p :
  0 < n ->
  stream cpu_count draw modules n num_epochs num_workers max_id = Ok s ->
  reachable modules s p ->
  sentinels_put p.(sent) = p.(shared).(current_put_epoch) /\
  p.(shared).(current_put_epoch) <= Z.max 0 num_epochs /\
  items_put p.(sent) <= n * Z.max 0 num_epochs /\
  Forall (fun ev => ev.1 < num_epochs) p.(sent).
Proof.
  intros Hn Hs [schedule Hrun].
  assert (epochs_inv num_epochs (start s)) as Hstart.
  { revert Hs. unfold stream.
    destruct (match resolve_num_workers _ _ return result Z with
              | Int z => Ok z | Float _ => Raise TypeError end) as [nw |];
      cbn [mbind result_bind]; [| done].
    destruct (match max_id return result Z with Some m => _ | None => _ end)
      as [mid |]; cbn [mbind result_bind]; [| done].
    destruct (if n =? -1 then _ else _) as [sl |]; cbn [mbind result_bind];
      [| done].
    intros [= <-]. repeat split; simpl; try done; try lia.
    by apply Forall_replicate. }
  destruct (run_invariant modules _ (epochs_inv num_epochs)
              (exec_epochs modules _ num_epochs) _ _ _ Hstart Hrun)
    as (_ & _ & _ & Hsent).
  destruct (stream_cases _ _ _ _ _ _ _ _ Hs) as [[-> _] | [_ Hinv]]; [lia |].
  pose proof (run_invariant modules _ (bounded_inv n)
                (fun a q q' => exec_bounded modules _ _ a q q' Hn)
                _ _ _ Hinv Hrun)
    as [_ _ _ _ _ _ Hread _].
  destruct (read_epochs_counts n num_epochs (sent p) ltac:(lia) Hsent _ _ Hread)
    as (Hsen & Hit & Hc & He & Hlast).
  repeat split; try done; try lia.
  rewrite Hit.
  set (c := done_in_current_epoch (shared p) + posted (workers p)) in *.
  destruct (Z.eq_dec c 0) as [-> | Hc0]; [nia |].
  specialize (Hlast ltac:(lia)). nia.
Qed.

(** ** The ids of a stream with epochs *)

Lemma to_int32_small v : 0 <= v < 2 ^ 31 -> to_int32 v = v.
Proof.
  intros Hv. unfold to_int32.
  rewrite Z.mod_small; [lia |].
  change (2 ^ 31) with 2147483648 in *. change (2 ^ 32) with 4294967296. lia.
Qed.

Lemma randint_ok draw m k :
  0 < m -> 0 <= k ->
  exists l, randint draw 0 m k = Ok l /\ len l = k /\
            Forall (fun v => 0 <= v < m) l.
Proof.
  intros Hm Hk. unfold randint.
  destruct (Z.ltb_spec k 0); [lia |]. destruct (Z.leb_spec m 0); [lia |].
  simpl. eexists. split; [reflexivity |]. split.
  - unfold len. rewrite length_fmap, length_seq. lia.
  - apply Forall_fmap, Forall_forall. intros i _. simpl.
    rewrite Z.sub_0_r. pose proof (Z.mod_pos_bound (draw i) m Hm). lia.
Qed.

Lemma drawn_list_ok draw m k :
  0 < m -> 0 <= k ->
  exists l, randint draw 0 m k = Ok l /\ len (to_int32 <$> l) = k /\
            (m <= 2 ^ 31 -> Forall (fun v => 0 <= v < m) (to_int32 <$> l)).
Proof.
  intros Hm Hk. destruct (randint_ok draw m k Hm Hk) as (l & Hl & Hlen & Hall).
  exists l. split; [done |]. split.
  - unfold len in *. by rewrite length_fmap.
  - intros Hfit. apply Forall_fmap. eapply List.Forall_impl; [| exact Hall].
    simpl. intros v Hv. rewrite to_int32_small; lia.
Qed.

Lemma tensor_index_ok (l : list Z) i :
  0 <= i < len l ->
  exists v, tensor_index l i = Ok v /\ l !! Z.to_nat i = Some v.
Proof.
  intros Hi. unfold tensor_index.
  destruct (Z.ltb_spec i 0); [lia |]. destruct (Z.ltb_spec i 0); [lia |].
  destruct (l !! Z.to_nat i) as [v |] eqn:Hv; [by exists v |].
  apply lookup_ge_None in Hv. unfold len in Hi. lia.
Qed.

(** With the list of the epoch in place, the block of lines 320-360
    raises nothing, and the id it takes is the one of the slot. *)
Lemma claim_bounded_ok modules draw d n l :
  0 < n -> d.(num_sketches) = n -> 0 < d.(max_id) ->
  d.(sketch_list) = Some l -> len l = n ->
  0 <= d.(current_sketch) < n ->
  exists d' c,
    claim modules draw d = Ok (d', c) /\
    l !! Z.to_nat d.(current_sketch) = Some c.(claimed_sketch_id) /\
    (d'.(sketch_list) = Some l \/
     exists l', randint draw 0 d.(max_id) n = Ok l' /\
                d'.(sketch_list) = Some (to_int32 <$> l')).
Proof.
  intros Hn Hnum Hmax Hl Hlen Hslot. unfold claim.
  rewrite Hnum, Hl. destruct (Z.eqb_spec n (-1)); [lia |].
  destruct (tensor_index_ok l (current_sketch d)) as (v & -> & Hv); [lia |].
  cbn [mbind result_bind].
  destruct (num_epochs d <=? current_pick_epoch d).
  { eexists _, _. split; [reflexivity |]. simpl. by auto. }
  destruct (current_sketch d =? n - 1).
  - destruct (randint_ok draw (max_id d) n) as (l' & Hl' & _); [done | lia |].
    rewrite Hl'. cbn [mbind result_bind].
    eexists _, _. split; [reflexivity |]. simpl. split; [done |].
    right. by exists l'.
  - eexists _, _. split; [reflexivity |]. simpl. by auto.
Qed.

Lemma exec_ids modules maxsize n M a p p' :
  0 < n ->
  bounded_inv n p ->
  ids_inv n M p ->
  exec modules maxsize a p = Some p' ->
  ids_inv n M p'.
Proof.
  intros Hn Hb (HM & Hpos & (l & Hl & Hlen & Hlall) & Hcr & Hfit).
  destruct a as [i draw computed | | | |]; simpl.
  - unfold run_worker.
    destruct (workers p !! i) as [w |] eqn:Hw; simpl; [| done].
    assert (M <= 2 ^ 31 -> holds_item (at_line w) = true ->
            0 <= w_sketch_id w < M) as Hfact.
    { intros HfitM. destruct (Hfit HfitM) as [Hws _].
      exact (Forall_lookup_1 _ _ _ _ Hws Hw). }
    destruct (at_line w) eqn:Hloc; try done;
      try solve [ repeat case_match; try done; intros [= <-];
                  (split; [done |]); (split; [done |]);
                  (split; [by exists l |]);
                  (split; [simpl; by apply Forall_insert |]);
                  intros HfitM; destruct (Hfit HfitM) as [Hws Hsent];
                  (split; [| done]); simpl;
                  (apply Forall_insert; [done |]); simpl;
                  first [ done | intros _; by apply Hfact ] ].
    + (* Claiming *)
      destruct Hb as [Hnum Hslot _ _ _ _ _ _].
      destruct (claim_bounded_ok modules draw (shared p) n l)
        as (d' & c & Hclaim & Hid & Hlist); try done; [lia |].
      rewrite Hclaim. intros [= <-].
      destruct (claim_frame _ _ _ _ _ Hclaim) as (_ & HM' & _).
      split; [simpl; lia |]. split; [done |]. split; [| split].
      * simpl. destruct Hlist as [-> | (l' & Hl' & ->)]; [by exists l |].
        destruct (drawn_list_ok draw M n) as (l2 & Hl2 & Hlen2 & Hall2);
          [done | lia |].
        rewrite HM in Hl'. rewrite Hl' in Hl2. injection Hl2 as <-.
        eexists. split; [done |]. by split.
      * simpl. apply Forall_insert; [done |]. simpl. by destruct (worker_dying c).
      * intros HfitM. destruct (Hfit HfitM) as [Hws Hsent].
        split; [| done]. simpl. apply Forall_insert; [done |]. simpl.
        intros _. specialize (Hlall HfitM).
        rewrite Forall_lookup in Hlall. by eapply Hlall.
    + (* Putting *)
      destruct (queue_full maxsize (queue p)); [done |].
      intros [= <-].
      split; [done |]. split; [done |]. split; [by exists l |].
      split; [simpl; by apply Forall_insert |].
      intros HfitM. destruct (Hfit HfitM) as [Hws Hsent]. simpl. split.
      * apply Forall_insert; [done |]. simpl. intros _. by apply Hfact.
      * apply Forall_app. split; [done |]. constructor; [| done].
        simpl. intros id [= <-]. by apply Hfact.
    + (* Counting *)
      pose proof (count_done_frame (shared p))
        as (_ & HM' & _ & _ & _ & _ & _ & Hl').
      destruct (count_done (shared p)) as [d' ms] eqn:Hcount.
      simpl in HM', Hl'.
      assert (ms = [] \/ ms = [Sentinel]) as Hms.
      { rewrite count_done_cases in Hcount.
        destruct (_ =? _); injection Hcount as <- <-; auto. }
      assert (forall h',
                (M <= 2 ^ 31 ->
                 Forall (fun ev => forall id, ev.2 = Item id -> 0 <= id < M) h') ->
                ids_inv n M
                  (update i (goto CheckDie w) d' false (queue p ++ ms) h' p))
        as Hgoal.
      { intros h' Hh'. split; [simpl; lia |]. split; [done |].
        split; [exists l; simpl; by rewrite Hl' |].
        split; [simpl; by apply Forall_insert |].
        intros HfitM. destruct (Hfit HfitM) as [Hws Hsent]. simpl.
        split; [by apply Forall_insert | by apply Hh']. }
      destruct Hms as [-> | ->].
      * intros [= <-]. specialize (Hgoal (sent p)).
        rewrite app_nil_r in Hgoal. apply Hgoal. intros HfitM. by apply Hfit.
      * destruct (queue_full maxsize (queue p)); [done |].
        intros [= <-]. apply Hgoal. intros HfitM.
        apply Forall_app. split; [by apply Hfit |]. by constructor.
  - intros [= <-]. split; [done |]. split; [done |]. by split; [exists l |].
  - intros [= <-]. split; [done |]. split; [done |]. by split; [exists l |].
  - intros [= <-]. split; [done |]. split; [done |]. by split; [exists l |].
  - destruct (queue p); [done |]. intros [= <-].
    split; [done |]. split; [done |]. by split; [exists l |].
Qed.

Lemma stream_ids_init cpu_count draw modules n num_epochs num_workers bound s :
  0 < n ->
  stream cpu_count draw modules n num_epochs num_workers bound = Ok s ->
  ids_inv n s.(setup_shared).(max_id) (start s).
Proof.
  intros Hn. unfold stream.
  destruct (match resolve_num_workers _ _ return result Z with
            | Int z => Ok z | Float _ => Raise TypeError end) as [nw |];
    cbn [mbind result_bind]; [| done].
  destruct (match bound return result Z with Some m => _ | None => _ end)
    as [mid |]; cbn [mbind result_bind]; [| done].
  destruct (Z.eqb_spec n (-1)); [lia |].
  destruct (Z.ltb_spec 0 n); [| lia].
  destruct (Z.le_gt_cases mid 0) as [Hle | Hgt].
  { unfold randint. destruct (Z.leb_spec mid 0); [| lia].
    by rewrite orb_true_r. }
  destruct (drawn_list_ok draw mid n) as (l & Hl & Hlen & Hall); [lia | lia |].
  rewrite Hl. cbn [mbind result_bind]. intros [= <-].
  split; [done |]. split; [simpl; lia |]. split; [by eexists |].
  split; [simpl; by apply Forall_replicate |].
  intros _. simpl. split; [by apply Forall_replicate | done].
Qed.

(** X7. In a stream with epochs the block of lines 320-360 never raises,
    whatever is drawn, so that no worker dies holding the lock; and, as
    long as [max_id <= 2^31], every item put on the queue carries an id in
    [[0, max_id)]. *)
Theorem bounded_claims_in_range cpu_count draw modules n num_epochs num_workers
    bound s p :
  0 < n ->
  stream cpu_count draw modules n num_epochs num_workers bound = Ok s ->
  reachable modules s p ->
  (forall draw', exists d' c, claim modules draw' p.(shared) = Ok (d', c)) /\
  Forall (fun w => w.(at_line) <> CrashedClaiming) p.(workers) /\
  (p.(shared).(max_id) <= 2 ^ 31 ->
   Forall (fun ev => forall id, ev.2 = Item id ->
                     0 <= id < p.(shared).(max_id)) p.(sent)).
Proof.
  intros Hn Hs [schedule Hrun].
  destruct (stream_cases _ _ _ _ _ _ _ _ Hs) as [[-> _] | [_ Hinv]]; [lia |].
  pose proof (stream_ids_init _ _ _ _ _ _ _ _ Hn Hs) as Hids.
  set (M := max_id (setup_shared s)) in *.
  destruct (run_invariant modules (setup_maxsize s)
              (fun q => bounded_inv n q /\ ids_inv n M q)) with schedule (start s) p
    as [Hb (HM & Hpos & (l & Hl & Hlen & Hlall) & Hcr & Hfit)];
    [| done | done |].
  { intros a q q' [Hq1 Hq2] Hexec. split.
    - by eapply exec_bounded.
    - by eapply exec_ids. }
  split; [| split; [done |]].
  - intros draw'. destruct Hb as [Hnum Hslot _ _ _ _ _ _].
    destruct (claim_bounded_ok modules draw' (shared p) n l)
      as (d' & c & Hclaim & _); try done; [lia |]. by eauto.
  - rewrite HM. intros HfitM. by apply Hfit.
Qed.

(** ** A stream over no module *)

Lemma claim_empty_modules modules draw d l :
  d.(num_sketches) = -1 ->
  modules.(modules_len) = Some l -> l <= 0 ->
  claim modules draw d = Raise RuntimeError.
Proof.
  intros Hn Hl Hle. unfold claim. rewrite Hn, Hl. simpl (-1 =? -1).
  cbv iota. unfold randint. destruct (Z.leb_spec l 0); [| lia].
  by rewrite orb_true_r.
Qed.

Lemma exec_idle modules maxsize l a p p' :
  modules.(modules_len) = Some l -> l <= 0 ->
  idle_inv p ->
  exec modules maxsize a p = Some p' ->
  idle_inv p'.
Proof.
  intros Hl Hle (Hn & Hws & Hsent & Hqueue).
  destruct a as [i draw computed | | | |]; simpl.
  - unfold run_worker.
    destruct (workers p !! i) as [w |] eqn:Hw; simpl; [| done].
    pose proof (Forall_lookup_1 _ _ _ _ Hws Hw) as [Hidle Hdrain].
    simpl in Hidle, Hdrain.
    rewrite (claim_empty_modules modules draw (shared p) l Hn Hl Hle).
    destruct (at_line w) eqn:Hloc; try done;
      repeat case_match; try done; intros [= <-];
      (split; [done |]); (split; [| done]); simpl;
      (apply Forall_insert; [done |]); done.
  - by intros [= <-].
  - by intros [= <-].
  - by intros [= <-].
  - rewrite Hqueue. done.
Qed.

(** X8. A stream without epochs over an empty collection of modules
    ([len(modules) <= 0]) starts, but never puts anything: the first
    worker that claims a slot dies in [torch.randint] with the lock held,
    and no worker gets past its claim. *)
Theorem empty_modules_produce_nothing cpu_count draw modules num_epochs
    num_workers bound l s p :
  modules.(modules_len) = Some l -> l <= 0 ->
  stream cpu_count draw modules (-1) num_epochs num_workers bound = Ok s ->
  reachable modules s p ->
  p.(sent) = [] /\ p.(queue) = [] /\
  Forall (fun w => holds_item w.(at_line) = false) p.(workers) /\
  (forall i w, p.(workers) !! i = Some w -> w.(at_line) = CrashedClaiming ->
               p.(locked) = true).
Proof.
  intros Hl Hle Hs [schedule Hrun].
  destruct (stream_cases _ _ _ _ _ _ _ _ Hs) as [[_ [Hn _ _ _ _ _]] | [Hpos _]];
    [| lia].
  destruct (run_invariant modules (setup_maxsize s) idle_inv
              (fun a q q' => exec_idle modules _ l a q q' Hl Hle)
              schedule (start s) p) as (_ & Hws & Hsent & Hqueue); [| done |].
  { split; [done |]. split; [| done]. simpl. by apply Forall_replicate. }
  split; [done |]. split; [done |]. split.
  { eapply List.Forall_impl; [| exact Hws]. by intros w []. }
  intros i w Hw Hloc.
  assert (countb (fun w => lock_held (at_line w)) (workers p)
          = (if locked p then 1 else 0)) as Hcount.
  { apply (run_invariant modules (setup_maxsize s)
             (fun q => countb (fun w => lock_held (at_line w)) (workers q)
                       = (if locked q then 1 else 0)))
      with schedule (start s); [| by apply countb_replicate | done].
    intros a q q'. apply exec_lock. }
  pose proof (countb_lookup (fun w => lock_held (at_line w)) _ i w Hw) as Hone.
  simpl in Hone. rewrite Hloc in Hone. specialize (Hone eq_refl).
  destruct (locked p); [done | lia].
Qed.

(** ** The ids of a stream without epochs *)

Lemma exec_unbounded_ids modules maxsize a p p' :
  let B := default int16_max modules.(modules_len) in
  p.(shared).(num_sketches) = -1 /\
  Forall (fun w => holds_item w.(at_line) = true -> 0 <= w.(w_sketch_id) < B)
    p.(workers) /\
  Forall (fun ev => forall id, ev.2 = Item id -> 0 <= id < B) p.(sent) ->
  exec modules maxsize a p = Some p' ->
  p'.(shared).(num_sketches) = -1 /\
  Forall (fun w => holds_item w.(at_line) = true -> 0 <= w.(w_sketch_id) < B)
    p'.(workers) /\
  Forall (fun ev => forall id, ev.2 = Item id -> 0 <= id < B) p'.(sent).
Proof.
  intros B (Hn & Hws & Hsent).
  destruct a as [i draw computed | | | |]; simpl.
  - unfold run_worker.
    destruct (workers p !! i) as [w |] eqn:Hw; simpl; [| done].
    pose proof (Forall_lookup_1 _ _ _ _ Hws Hw) as Hfact. simpl in Hfact.
    destruct (at_line w) eqn:Hloc; try done;
      try solve [ repeat case_match; try done; intros [= <-];
                  (split; [done |]); (split; [| done]); simpl;
                  (apply Forall_insert; [done |]); simpl;
                  first [ done | intros _; by apply Hfact ] ].
    + (* Claiming *)
      destruct (claim modules draw (shared p)) as [[d' c] |] eqn:Hclaim;
        intros [= <-].
      2:{ split; [done |]. split; [| done]. simpl. by apply Forall_insert. }
      pose proof (claim_unbounded_range _ _ _ _ _ Hn Hclaim) as Hrange.
      destruct (claim_frame _ _ _ _ _ Hclaim) as (_ & _ & Hn' & _).
      split; [simpl; lia |]. split; [| done]. simpl.
      apply Forall_insert; [done |]. simpl. by intros _.
    + (* Putting *)
      destruct (queue_full maxsize (queue p)); [done |].
      intros [= <-]. split; [done |]. simpl. split.
      * apply Forall_insert; [done |]. simpl. intros _. by apply Hfact.
      * apply Forall_app. split; [done |]. constructor; [| done].
        simpl. intros id [= <-]. by apply Hfact.
    + (* Counting *)
      pose proof (count_done_frame (shared p)) as (_ & _ & Hn' & _).
      destruct (count_done (shared p)) as [d' ms] eqn:Hcount. simpl in Hn'.
      assert (ms = [] \/ ms = [Sentinel]) as Hms.
      { rewrite count_done_cases in Hcount.
        destruct (_ =? _); injection Hcount as <- <-; auto. }
      destruct Hms as [-> | ->].
      * intros [= <-]. split; [simpl; lia |]. simpl. split; [| done].
        by apply Forall_insert.
      * destruct (queue_full maxsize (queue p)); [done |].
        intros [= <-]. split; [simpl; lia |]. simpl. split.
        -- by apply Forall_insert.
        -- apply Forall_app. split; [done |]. by constructor.
  - by intros [= <-].
  - by intros [= <-].
  - by intros [= <-].
  - destruct (queue p); [done |]. by intros [= <-].
Qed.

(** X9. In a stream without epochs every item put on the queue carries
    an id in [[0, len(modules))], or in [[0, 32767)] when [modules] has no
    [__len__]; the bound [max_id] of the record plays no part. *)
Theorem unbounded_ids_in_range cpu_count draw modules num_epochs num_workers
    bound s p :
  stream cpu_count draw modules (-1) num_epochs num_workers bound = Ok s ->
  reachable modules s p ->
  Forall (fun ev => forall id, ev.2 = Item id ->
                    0 <= id < default int16_max modules.(modules_len))
    p.(sent).
Proof.
  intros Hs [schedule Hrun].
  destruct (stream_cases _ _ _ _ _ _ _ _ Hs) as [[_ [Hn _ _ _ _ _]] | [Hpos _]];
    [| lia].
  apply (run_invariant modules (setup_maxsize s)
           (fun q =>
              q.(shared).(num_sketches) = -1 /\
              Forall (fun w => holds_item w.(at_line) = true ->
                               0 <= w.(w_sketch_id)
                               < default int16_max modules.(modules_len))
                q.(workers) /\
              Forall (fun ev => forall id, ev.2 = Item id ->
                                0 <= id < default int16_max modules.(modules_len))
                q.(sent))) with schedule (start s); [| | done].
  - intros a q q'. apply exec_unbounded_ids.
  - split; [done |]. split; [| done]. simpl. by apply Forall_replicate.
Qed.

(** ** When [stream] returns *)


(* ===================================================================== *)
(** * More properties of the quantile sketch routine *)
(* ===================================================================== *)

Section QuantileMore.
Context {sample row pct quantiles : Type}.
Variable Percentile : list row -> pct -> quantiles.
Variable uninit : nat -> row.

Implicit Types (m : @module sample row) (bs : list (batch sample)).
Implicit Types (d : data_source sample) (it : option (data_source sample)).

(** An iterator is a fixed point of [to_iterator]. *)
Lemma to_iterator_fixed (src it : option (data_source sample)) :
  to_iterator src = Ok it -> to_iterator it = Ok it.
Proof.
  destruct src as [[msgs | msgs | t | | | bs | |] |]; simpl;
    by intros [= <-].
Qed.

(** X11. What [to_iterator] returns it returns unchanged when applied
    again, so that the second conversion, which [sketch] makes of the
    iterator [Sketcher] hands it, changes nothing; and it raises for an
    object that is not iterable, and for nothing else. *)
Theorem to_iterator_idempotent (src : option (data_source sample)) :
  (forall it, to_iterator src = Ok it -> to_iterator it = Ok it) /\
  (forall e, to_iterator src = Raise e <->
             src = Some SrcOther /\ e = UnsupportedSourceError).
Proof.
  split.
  - intros it. apply to_iterator_fixed.
  - intros e. destruct src as [[msgs | msgs | t | | | bs | |] |]; simpl;
      (split; [try done; by intros [= <-] | intros [[=] ?]; by subst]).
Qed.

(** The body of the loop over the modules on an exhausted iterator. *)
Lemma sketch_module_exhausted m ne :
  sketch_module uninit m ne (Some (SrcIterator [])) = Raise EmptySourceError.
Proof.
  unfold sketch_module, run_loop. simpl. by destruct (negb (loop_cond ne 0)).
Qed.

(** X12. On a [Dataset], a [DataLoader], an iterable without [__next__]
    or [None], the first [next] is a [TypeError]: [sketch] raises it for
    every module and every budget that lets the loop start. *)
Theorem sketch_not_an_iterator m (ms : list (@module sample row)) src it
    (p : pct) ne :
  to_iterator src = Ok it ->
  (forall bs, it <> Some (SrcIterator bs)) ->
  loop_cond ne 0 = true ->
  sketch Percentile uninit (OneModule m) src p ne = Raise TypeError /\
  sketch Percentile uninit (Modules (m :: ms)) src p ne = Raise TypeError.
Proof.
  intros Hit Hnot Hcond.
  assert (sketch_module uninit m ne it = Raise TypeError) as Hm.
  { unfold sketch_module, run_loop.
    destruct it as [[msgs | msgs | t | | | bs | |] |]; rewrite ?Hcond; try done.
    by destruct (Hnot bs). }
  unfold sketch. rewrite Hit. cbn [mbind result_bind sketch_loop].
  by rewrite Hm.
Qed.

(** X13. A budget [k <= 0] never lets the loop start: whatever the source
    holds, [sketch] raises [EmptySourceError] and leaves the source as it
    is. *)
Theorem sketch_budget_nonpositive m (ms : list (@module sample row)) src it
    (p : pct) (k : Z) :
  k <= 0 ->
  to_iterator src = Ok it ->
  run_loop uninit m (Some k) it
    = Ok (LoopExit None 0 []
            match it with Some (SrcIterator bs) => bs | _ => [] end,
          it) /\
  sketch Percentile uninit (OneModule m) src p (Some k)
    = Raise EmptySourceError /\
  sketch Percentile uninit (Modules (m :: ms)) src p (Some k)
    = Raise EmptySourceError.
Proof.
  intros Hk Hit.
  assert (run_loop uninit m (Some k) it
          = Ok (LoopExit None 0 []
                  match it with Some (SrcIterator bs) => bs | _ => [] end,
                it)) as Hrun.
  { unfold run_loop, loop_cond. destruct (Z.ltb_spec 0 k); [lia |].
    destruct it as [[msgs | msgs | t | | | bs | |] |]; try done.
    destruct bs; simpl; unfold loop_cond;
      destruct (Z.ltb_spec 0 k); (done || lia). }
  split; [done |].
  assert (sketch_module uninit m (Some k) it = Raise EmptySourceError) as Hm.
  { unfold sketch_module. by rewrite Hrun. }
  unfold sketch. rewrite Hit. cbn [mbind result_bind sketch_loop].
  by rewrite Hm.
Qed.

Lemma sketch_loop_length (ms : list (@module sample row)) (p : pct) ne :
  forall it qs ws it',
    sketch_loop Percentile uninit ms p ne it = Ok (qs, ws, it') ->
    length qs = length ms.
Proof.
  induction ms as [| m ms IH]; intros it qs ws it'; simpl.
  - by intros [= <- _ _].
  - destruct (sketch_module uninit m ne it) as [[[rows w1] it1] |];
      cbn [mbind result_bind]; [| done].
    destruct (sketch_loop _ _ ms p ne it1) as [[[qs' w2] it2] |] eqn:Hl;
      cbn [mbind result_bind]; [| done].
    intros [= <- _ _]. simpl. f_equal. by eapply IH.
Qed.

(** X14. When it returns, [sketch] returns one sketch per module, in a
    list when [modules] is iterable and bare when it is one module. *)
Theorem sketch_one_per_module (ms : list (@module sample row)) m src (p : pct)
    ne r ws it' :
  (sketch Percentile uninit (Modules ms) src p ne = Ok (r, ws, it') ->
   exists qs, r = Sketches qs /\ length qs = length ms) /\
  (sketch Percentile uninit (OneModule m) src p ne = Ok (r, ws, it') ->
   exists q, r = OneSketch q).
Proof.
  unfold sketch. destruct (to_iterator src) as [it |]; cbn [mbind result_bind].
  2:{ split; done. }
  split.
  - destruct (sketch_loop _ _ ms p ne it) as [[[qs w] it1] |] eqn:Hl;
      cbn [mbind result_bind]; [| done].
    intros [= <- _ _]. exists qs. split; [done |]. by eapply sketch_loop_length.
  - destruct (sketch_loop _ _ [m] p ne it) as [[[qs w] it1] |] eqn:Hl;
      cbn [mbind result_bind]; [| done].
    destruct qs as [| q qs]; [done |]. intros [= <- _ _]. by exists q.
Qed.

(** X15. Without a budget the first module takes every batch of the
    iterator: with two modules or more, [sketch] raises
    [EmptySourceError] at the second one. *)
Theorem sketch_second_module_starves m1 m2 (ms : list (@module sample row))
    d bs (p : pct) :
  to_iterator (Some d) = Ok (Some (SrcIterator bs)) ->
  Forall (fun b => b <> []) bs ->
  sketch Percentile uninit (Modules (m1 :: m2 :: ms)) (Some d) p None
    = Raise EmptySourceError.
Proof.
  intros Hd Hall. unfold sketch. rewrite Hd.
  cbn [mbind result_bind sketch_loop].
  destruct bs as [| b bs'].
  - by rewrite sketch_module_exhausted.
  - rewrite (sketch_module_all uninit m1 (b :: bs')) by done.
    cbn [mbind result_bind]. by rewrite sketch_module_exhausted.
Qed.



(** A loop that returns went through non-empty batches only, and stopped
    before the end of the iterator only on a budget reached. *)
Lemma accumulate_ok_shape m ne bs :
  forall (processed : option (list row)) (pos : Z) (e : loop_exit),
    accumulate uninit m ne bs processed pos = Ok e ->
    exists used,
      bs = used ++ exit_pending e /\
      Forall (fun b => b <> []) used /\
      exit_pos e <= pos + len (concat used) /\
      (exit_pending e <> [] -> loop_cond ne (exit_pos e) = false).
Proof.
  induction bs as [| imgs bs IH]; intros processed pos e.
  - simpl. destruct (negb _); intros [= <-]; exists []; simpl;
      unfold len; simpl; (repeat split; [done | lia | done]).
  - simpl accumulate. destruct (loop_cond ne pos) eqn:Hcond; simpl negb; cbv iota.
    2:{ intros [= <-]. exists []. simpl. unfold len. simpl.
        repeat split; [done | lia | done]. }
    unfold view.
    destruct (Z.eqb_spec (match ne with
                          | Some k => len imgs `min` (k - pos)
                          | None => len imgs
                          end) 0) as [| Hn]; [done |].
    cbn [mbind result_bind].
    destruct (match processed with Some _ => _ | None => _ end) as [buf |];
      [| done].
    cbn [mbind result_bind].
    destruct (match ne with Some _ => set_slice _ _ _ _ | None => _ end)
      as [buf' |]; [| done].
    cbn [mbind result_bind]. intros He.
    destruct (IH _ _ _ He) as (used & Hused & Hall & Hpos & Hstop).
    exists (imgs :: used). split; [by rewrite Hused at 1 |].
    assert (imgs <> []) as Himgs.
    { intros ->. apply Hn. unfold len. simpl. destruct ne; [| done].
      unfold loop_cond in Hcond. apply Z.ltb_lt in Hcond. lia. }
    split; [by constructor |]. split; [| done].
    rewrite len_concat_cons. pose proof (len_nonneg imgs).
    destruct ne; lia.
Qed.

(** X17. An empty batch that the loop reaches makes the routine fail with
    torch's [RuntimeError]: without a budget wherever it stands in the
    source, with a budget [k] when fewer than [k] samples come before
    it. *)
Theorem sketch_empty_batch m d pre rest (p : pct) ne :
  to_iterator (Some d) = Ok (Some (SrcIterator (pre ++ [] :: rest))) ->
  match ne with
  | None => True
  | Some k => len (concat pre) < k
  end ->
  sketch Percentile uninit (OneModule m) (Some d) p ne = Raise RuntimeError.
Proof.
  intros Hd Hreach. unfold sketch. rewrite Hd.
  cbn [mbind result_bind sketch_loop]. unfold sketch_module, run_loop.
  destruct (accumulate uninit m ne (pre ++ [] :: rest) None 0) as [e | x] eqn:He;
    cbn [mbind result_bind].
  2:{ by apply accumulate_raises in He as ->. }
  exfalso.
  destruct (accumulate_ok_shape _ _ _ _ _ _ He)
    as (used & Hused & Hall & Hpos & Hstop).
  (* the batches gone through are among those before the empty one *)
  assert (exists more, pre = used ++ more) as [more ->].
  { clear He Hpos Hstop Hreach Hd. revert pre Hused.
    induction Hall as [| b used Hb _ IH]; intros pre Hused; [by exists pre |].
    destruct pre as [| b' pre']; simpl in Hused.
    - injection Hused as <- _. done.
    - injection Hused as <- Hused. destruct (IH _ Hused) as [more ->].
      by exists more. }
  rewrite <- app_assoc in Hused. apply app_inv_head in Hused.
  assert (exit_pending e <> []) as Hne.
  { rewrite <- Hused. by destruct more. }
  specialize (Hstop Hne). unfold loop_cond in Hstop.
  destruct ne as [k |]; [| done]. apply Z.ltb_ge in Hstop.
  rewrite concat_app in Hreach. unfold len in *.
  rewrite length_app in Hreach. lia.
Qed.

(** The iterator the body of the loop over the modules leaves is one
    [to_iterator] does not change. *)
Lemma sketch_module_fixed m ne it rows ws it' :
  to_iterator it = Ok it ->
  sketch_module uninit m ne it = Ok (rows, ws, it') ->
  to_iterator it' = Ok it'.
Proof.
  intros Hfix. unfold sketch_module, run_loop.
  destruct it as [[msgs | msgs | t | | | bs | |] |]; try done;
    try (destruct (loop_cond ne 0); [done |]; cbn [mbind result_bind]; done).
  destruct (accumulate _ _ _ _ _ _) as [e |]; cbn [mbind result_bind]; [| done].
  destruct (exit_processed e); [| done].
  destruct (view _ _); cbn [mbind result_bind]; [| done].
  by intros [= _ _ <-].
Qed.

(** X18. Two on-demand sketches in a row, of [m1] and then of [m2], draw
    from the default iterator one after the other: they give the
    sketches, the warnings and the iterator that one call on the list
    [[m1, m2]] gives. *)
Theorem getitem_twice_is_getitem_of_list (self self1 self2 : @Sketcher sample pct)
    m1 m2 r1 r2 ws1 ws2 :
  Sketcher_getitem Percentile uninit self (OneModule m1) = Ok (r1, ws1, self1) ->
  Sketcher_getitem Percentile uninit self1 (OneModule m2) = Ok (r2, ws2, self2) ->
  exists q1 q2,
    r1 = OneSketch q1 /\ r2 = OneSketch q2 /\
    Sketcher_getitem Percentile uninit self (Modules [m1; m2])
      = Ok (Sketches [q1; q2], ws1 ++ ws2, self2).
Proof.
  unfold Sketcher_getitem, Sketcher_call, call_arguments.
  destruct self as [[src |] p ne]; simpl; [| done].
  unfold sketch at 1 3.
  destruct (to_iterator (Some src)) as [it0 |] eqn:Hsrc;
    cbn [mbind result_bind sketch_loop]; [| done].
  pose proof (to_iterator_fixed _ _ Hsrc) as Hfix0.
  destruct (sketch_module uninit m1 ne it0) as [[[rows1 w1] it1] |] eqn:Hm1;
    cbn [mbind result_bind]; [| done].
  intros [= <- <- <-]. simpl.
  pose proof (sketch_module_fixed _ _ _ _ _ _ Hfix0 Hm1) as Hfix1.
  destruct it1 as [x |]; [| done]. cbn [mbind result_bind].
  unfold sketch. rewrite Hfix1. cbn [mbind result_bind sketch_loop].
  destruct (sketch_module uninit m2 ne (Some x)) as [[[rows2 w2] it2] |];
    cbn [mbind result_bind]; [| done].
  intros [= <- <- <-].
  eexists _, _. split; [done |]. split; [done |].
  by rewrite !app_nil_r.
Qed.


End QuantileMore.

(* ===================================================================== *)
(** * Properties of [ModulesDataset] and [TransformedDataset] *)
(* ===================================================================== *)

Section ModulesDatasetTheory.
Context {params rng : Type}.
Variable construct : rng -> params * rng.
Variable seeded : Z -> params * rng.

Implicit Types (w : @md_world params rng).

(** [__getitem__] with an int index: the module returned, the generator
    and the fields of the dataset afterwards. *)
Lemma MD_getitem_int w (i : Z) :
  md_wf w ->
  exists a w',
    MD_getitem construct seeded (IntIndex i) w = (w', Ok (OneItem a)) /\
    w'.(md_heap) !! a = Some (seeded i).1 /\
    w'.(md_rng) = (seeded i).2 /\
    w'.(md_self).(md_pos) = w.(md_self).(md_pos) /\
    w'.(md_self).(md_recycle) = w.(md_self).(md_recycle) /\
    md_wf w'.
Proof.
  unfold md_wf, MD_getitem, MD_new_module, MD_recycle_module.
  intros Hwf. destruct w as [[pos current recycle] heap g]. simpl in *.
  destruct (seeded i) as [p gi] eqn:Hseed.
  destruct recycle.
  - destruct current as [a |].
    + eexists _, _. split; [reflexivity |]. simpl.
      rewrite length_insert. split; [| done].
      by apply list_lookup_insert_eq.
    + destruct (construct g) as [p0 g0]. simpl.
      eexists _, _. split; [reflexivity |]. simpl.
      rewrite length_insert, length_app. simpl.
      split; [| repeat split; [done .. | lia]].
      apply list_lookup_insert_eq. rewrite length_app. simpl. lia.
  - destruct (construct g) as [p0 g0]. simpl.
    eexists _, _. split; [reflexivity |]. simpl.
    split; [| repeat split; [done .. |]].
    + apply list_lookup_insert_eq. rewrite length_app. simpl. lia.
    + destruct current; [| done]. rewrite length_insert, length_app. lia.
Qed.




(** X23. Asking for a non-empty list of indexes raises a [TypeError]
    ([recycle_module] is called without its [index]), through
    [modules[...]] and through [modules(...)]; after the second the
    dataset is left with recycling switched off.  An empty list gives an
    empty list. *)
Theorem MD_list_index_raises w (index : Z) (l : list Z) :
  (MD_getitem construct seeded (IndexList (index :: l)) w).2 = Raise TypeError /\
  (MD_call construct seeded (IndexList (index :: l)) w).2 = Raise TypeError /\
  (MD_call construct seeded (IndexList (index :: l)) w).1.(md_self).(md_recycle)
    = false /\
  MD_getitem construct seeded (IndexList []) w = (w, Ok (ItemList [])).
Proof.
  unfold MD_call, MD_getitem, MD_new_module, md_set_recycle.
  destruct w as [[pos current recycle] heap g]. simpl.
  by destruct (construct g) as [p0 g0].
Qed.

Lemma fmap_seq_shift {A} (f g : nat -> A) (n j : nat) :
  (forall k, f k = g (S k)) -> f <$> seq j n = g <$> seq (S j) n.
Proof.
  intros Hfg. revert j. induction n as [| n IH]; intros j; [done |].
  simpl. f_equal; [apply Hfg | apply IH].
Qed.

Lemma MD_next_step w :
  md_wf w ->
  exists a w',
    MD_next construct seeded w = (w', Ok (OneItem a)) /\
    w'.(md_heap) !! a = Some (seeded (w.(md_self).(md_pos) + 1)).1 /\
    w'.(md_self).(md_pos) = w.(md_self).(md_pos) + 1 /\
    md_wf w'.
Proof.
  intros Hwf. unfold MD_next.
  set (w1 := MdWorld _ _ _).
  destruct (MD_getitem_int w1 (md_pos (md_self w) + 1))
    as (a & w' & Hget & Hp & _ & Hpos & _ & Hwf'); [done |].
  by exists a, w'.
Qed.

(** X24. Iterating over the dataset never ends by itself and never gives
    index 0: the [k]-th module of the loop carries the parameters seeded
    by [pos + k], which is [k] for a dataset not yet iterated. *)
Theorem MD_iterate_seeds (n : nat) w :
  md_wf w ->
  (MD_iterate construct seeded n w).2
    = (fun k => Some (seeded (w.(md_self).(md_pos) + Z.of_nat k)).1)
        <$> seq 1 n /\
  (MD_iterate construct seeded n w).1.(md_self).(md_pos)
    = w.(md_self).(md_pos) + Z.of_nat n.
Proof.
  revert w. induction n as [| n IH]; intros w Hwf.
  - simpl. split; [done | lia].
  - simpl MD_iterate.
    destruct (MD_next_step w Hwf) as (a & w' & -> & Hp & Hpos & Hwf').
    destruct (IH w' Hwf') as [Hps Hpos'].
    destruct (MD_iterate construct seeded n w') as [w'' ps]. simpl in *.
    split; [| lia]. rewrite Hp, Hps. f_equal.
    apply fmap_seq_shift. intros k. rewrite Hpos. do 3 f_equal. lia.
Qed.
End ModulesDatasetTheory.

Section TransformedDatasetTheory.
Context {X Y : Type}.

Implicit Types (self : @TransformedDataset X Y).

(** The pair [__getitem__] makes of [self.dataset[id]]. *)
Lemma TD_loop_spec self (l : list Z) (ps : list (X * Y)) :
  TD_loop self l = Ok ps <->
  Forall2 (fun id xy =>
             exists x y,
               self.(td_dataset) id = Ok (x, y) /\
               xy = (match self.(td_transform) with
                     | None => x
                     | Some f => f x
                     end,
                     match self.(td_target_transform) with
                     | None => y
                     | Some f => f y
                     end)) l ps.
Proof.
  revert ps. induction l as [| id l IH]; intros ps; simpl.
  - split.
    + intros [= <-]. constructor.
    + intros H. apply Forall2_nil_inv_l in H. by subst.
  - destruct (td_dataset self id) as [[x y] |] eqn:Hid; cbn [mbind result_bind].
    + destruct (TD_loop self l) as [ps' |]; cbn [mbind result_bind]; split.
      * intros [= <-]. constructor; [by eauto | by apply IH].
      * intros H. apply Forall2_cons_inv_l in H
          as (xy & ps2 & (x' & y' & Hxy & ->) & Hrest & ->).
        rewrite Hid in Hxy. injection Hxy as <- <-.
        apply IH in Hrest. by injection Hrest as <-.
      * done.
      * intros H. apply Forall2_cons_inv_l in H
          as (xy & ps2 & _ & Hrest & ->).
        by apply IH in Hrest.
    + split; [done |].
      intros H. apply Forall2_cons_inv_l in H
        as (xy & ps2 & (x' & y' & Hxy & _) & _).
      by rewrite Hid in Hxy.
Qed.

(** X25. Indexing a [TransformedDataset] with a list returns exactly one
    pair per index, in order, each the pair of the underlying dataset with
    the transforms that are not [None] applied; indexing with one integer
    returns the pair itself, the one the list of that integer holds. *)
Theorem TD_getitem_maps self (l : list Z) (ps : list (X * Y)) (i : Z)
    (xy : X * Y) :
  (TD_getitem self (IndexList l) = Ok (PairList ps) <->
   Forall2 (fun id xy =>
              exists x y,
                self.(td_dataset) id = Ok (x, y) /\
                xy = (match self.(td_transform) with
                      | None => x
                      | Some f => f x
                      end,
                      match self.(td_target_transform) with
                      | None => y
                      | Some f => f y
                      end)) l ps) /\
  (TD_getitem self (IndexList l) = Ok (PairList ps) -> length ps = length l) /\
  (TD_getitem self (IntIndex i) = Ok (OnePair xy) <->
   TD_getitem self (IndexList [i]) = Ok (PairList [xy])).
Proof.
  assert (TD_getitem self (IndexList l) = Ok (PairList ps)
          <-> TD_loop self l = Ok ps) as Hlist.
  { unfold TD_getitem. destruct (TD_loop self l); cbn [mbind result_bind];
      split; try done; by intros [= <-]. }
  split; [| split].
  - rewrite Hlist. apply TD_loop_spec.
  - rewrite Hlist, TD_loop_spec. intros H. symmetry. by eapply Forall2_length.
  - unfold TD_getitem. simpl.
    destruct (td_dataset self i) as [[x y] |]; cbn [mbind result_bind];
      split; try done; by intros [= <-].
Qed.

(** X26. When [self.dataset[id]] raises for one of the indexes, and for
    none before it, [__getitem__] raises that exception: no item is
    returned, for a list and for a single index alike. *)
Theorem TD_getitem_first_failure self (pre post : list Z) (id : Z) (e : exn) :
  Forall (fun j => exists xy, self.(td_dataset) j = Ok xy) pre ->
  self.(td_dataset) id = Raise e ->
  TD_getitem self (IndexList (pre ++ id :: post)) = Raise e /\
  TD_getitem self (IntIndex id) = Raise e.
Proof.
  intros Hpre Hid. split.
  - unfold TD_getitem.
    assert (TD_loop self (pre ++ id :: post) = Raise e) as ->; [| done].
    induction Hpre as [| j pre [[x y] Hj] _ IH]; simpl.
    + by rewrite Hid.
    + rewrite Hj. cbn [mbind result_bind]. by rewrite IH.
  - unfold TD_getitem. simpl. by rewrite Hid.
Qed.
End TransformedDatasetTheory.

(* ===================================================================== *)
(** * These properties at work on examples *)
(* ===================================================================== *)

Lemma ex_reachable_unbounded :
  reachable ex_modules ex_setup_unbounded ex_pool_unbounded.
Proof. by exists (replicate 3 (Run 0 ex_draw true)). Qed.

Lemma ex_reachable_no_modules :
  reachable ex_no_modules ex_setup_no_modules ex_pool_no_modules.
Proof. by exists (replicate 3 (Run 0 ex_draw true)). Qed.

Lemma queue_within_maxsize_witness :
  stream 4 ex_draw ex_modules 2 1 1 (Some 5) = Ok ex_setup /\
  0 < ex_setup.(setup_processes) /\
  reachable ex_modules ex_setup ex_pool /\
  len ex_pool.(queue) <= 2 * ex_setup.(setup_processes).
Proof.
  split; [reflexivity |]. split; [by vm_compute |].
  split; [exact ex_reachable |].
  apply (queue_within_maxsize 4 ex_draw ex_modules 2 1 1 (Some 5)
           ex_setup ex_pool);
    [reflexivity | by vm_compute | exact ex_reachable].
Defined.

Lemma unbounded_never_sentinel_witness :
  stream 4 ex_draw ex_modules (-1) 1 1 (Some 10) = Ok ex_setup_unbounded /\
  reachable ex_modules ex_setup_unbounded ex_pool_unbounded /\
  ex_pool_unbounded.(shared).(current_put_epoch) = 0.
Proof.
  split; [reflexivity |]. split; [exact ex_reachable_unbounded |].
  apply (unbounded_never_sentinel 4 ex_draw ex_modules 1 1 (Some 10)
           ex_setup_unbounded ex_pool_unbounded);
    [reflexivity | exact ex_reachable_unbounded].
Defined.

Lemma lock_is_exclusive_witness :
  stream 4 ex_draw ex_modules 2 1 1 (Some 5) = Ok ex_setup /\
  reachable ex_modules ex_setup ex_pool /\
  countb (fun w => lock_held w.(at_line)) ex_pool.(workers)
    = (if ex_pool.(locked) then 1 else 0).
Proof.
  split; [reflexivity |]. split; [exact ex_reachable |].
  apply (lock_is_exclusive 4 ex_draw ex_modules 2 1 1 (Some 5)
           ex_setup ex_pool);
    [reflexivity | exact ex_reachable].
Defined.

Lemma stop_bounds_output_witness :
  ex_stopped.(shared).(die) = true /\
  run ex_modules 2 ex_stopped_schedule ex_stopped = Some ex_stopped_end /\
  items_put ex_stopped_end.(sent)
    <= items_put ex_stopped.(sent) + len ex_stopped.(workers).
Proof.
  split; [reflexivity |]. split; [reflexivity |].
  apply (stop_bounds_output ex_modules 2 ex_stopped_schedule ex_stopped
           ex_stopped_end); reflexivity.
Defined.

Lemma pause_bounds_output_witness :
  ex_paused.(shared).(pause) = true /\
  no_resume ex_paused_schedule = true /\
  run ex_modules 2 ex_paused_schedule ex_paused = Some ex_paused_end /\
  items_put ex_paused_end.(sent)
    <= items_put ex_paused.(sent) + len ex_paused.(workers).
Proof.
  split; [reflexivity |]. split; [reflexivity |]. split; [reflexivity |].
  apply (pause_bounds_output ex_modules 2 ex_paused_schedule ex_paused
           ex_paused_end); reflexivity.
Defined.

Lemma bounded_stream_output_witness :
  0 < 2 /\
  stream 4 ex_draw ex_modules 2 1 1 (Some 5) = Ok ex_setup /\
  reachable ex_modules ex_setup ex_pool /\
  sentinels_put ex_pool.(sent) = ex_pool.(shared).(current_put_epoch) /\
  items_put ex_pool.(sent) <= 2 * Z.max 0 1.
Proof.
  split; [lia |]. split; [reflexivity |]. split; [exact ex_reachable |].
  destruct (bounded_stream_output 4 ex_draw ex_modules 2 1 1 (Some 5)
              ex_setup ex_pool) as (Hs & _ & Hi & _);
    [lia | reflexivity | exact ex_reachable |].
  split; [exact Hs | exact Hi].
Defined.

Lemma bounded_claims_in_range_witness :
  0 < 2 /\
  stream 4 ex_draw ex_modules 2 1 1 (Some 5) = Ok ex_setup /\
  reachable ex_modules ex_setup ex_pool /\
  Forall (fun w => w.(at_line) <> CrashedClaiming) ex_pool.(workers).
Proof.
  split; [lia |]. split; [reflexivity |]. split; [exact ex_reachable |].
  apply (bounded_claims_in_range 4 ex_draw ex_modules 2 1 1 (Some 5)
           ex_setup ex_pool);
    [lia | reflexivity | exact ex_reachable].
Defined.

Lemma empty_modules_produce_nothing_witness :
  ex_no_modules.(modules_len) = Some 0 /\ 0 <= 0 /\
  stream 4 ex_draw ex_no_modules (-1) 1 1 None = Ok ex_setup_no_modules /\
  reachable ex_no_modules ex_setup_no_modules ex_pool_no_modules /\
  ex_pool_no_modules.(sent) = [].
Proof.
  split; [reflexivity |]. split; [lia |]. split; [reflexivity |].
  split; [exact ex_reachable_no_modules |].
  apply (empty_modules_produce_nothing 4 ex_draw ex_no_modules 1 1 None 0
           ex_setup_no_modules ex_pool_no_modules);
    [reflexivity | lia | reflexivity | exact ex_reachable_no_modules].
Defined.


Lemma unbounded_ids_in_range_witness :
  stream 4 ex_draw ex_modules (-1) 1 1 (Some 10) = Ok ex_setup_unbounded /\
  reachable ex_modules ex_setup_unbounded ex_pool_unbounded /\
  Forall (fun ev => forall id, ev.2 = Item id -> 0 <= id < 100)
    ex_pool_unbounded.(sent).
Proof.
  split; [reflexivity |]. split; [exact ex_reachable_unbounded |].
  apply (unbounded_ids_in_range 4 ex_draw ex_modules 1 1 (Some 10)
           ex_setup_unbounded ex_pool_unbounded);
    [reflexivity | exact ex_reachable_unbounded].
Defined.

Lemma to_iterator_idempotent_witness :
  to_iterator (Some (SrcQueue [[1; 2]])) = Ok (Some (SrcIterator [[1; 2]])) /\
  to_iterator (Some (SrcIterator [[1; 2]])) = Ok (Some (SrcIterator [[1; 2]])).
Proof.
  split; [reflexivity |].
  apply (proj1 (to_iterator_idempotent (Some (SrcQueue [[1; 2]])))).
  reflexivity.
Defined.

Lemma sketch_not_an_iterator_witness :
  to_iterator (Some (@SrcDataset Z)) = Ok (Some SrcDataLoader) /\
  loop_cond (Some 3) 0 = true /\
  sketch ex_Percentile ex_uninit (OneModule ex_module) (Some SrcDataset) tt
    (Some 3) = Raise TypeError.
Proof.
  split; [reflexivity |]. split; [reflexivity |].
  apply (sketch_not_an_iterator ex_Percentile ex_uninit ex_module []
           (Some SrcDataset) (Some SrcDataLoader) tt (Some 3));
    [reflexivity | done | reflexivity].
Defined.

Lemma sketch_budget_nonpositive_witness :
  -1 <= 0 /\
  to_iterator (Some (SrcIterator [[1; 2]])) = Ok (Some (SrcIterator [[1; 2]])) /\
  sketch ex_Percentile ex_uninit (OneModule ex_module)
    (Some (SrcIterator [[1; 2]])) tt (Some (-1))
  = Raise EmptySourceError.
Proof.
  split; [lia |]. split; [reflexivity |].
  apply (sketch_budget_nonpositive ex_Percentile ex_uninit ex_module []
           (Some (SrcIterator [[1; 2]])) (Some (SrcIterator [[1; 2]])) tt (-1));
    [lia | reflexivity].
Defined.

Lemma sketch_one_per_module_witness :
  sketch ex_Percentile ex_uninit (Modules [ex_module; ex_module])
    (Some (SrcIterator [[1]; [2]])) tt (Some 1)
  = Ok (Sketches [[10]; [20]], [], Some (SrcIterator [])) /\
  exists qs, Sketches [[10]; [20]] = Sketches qs /\ length qs = 2%nat.
Proof.
  split; [reflexivity |].
  apply (proj1 (sketch_one_per_module ex_Percentile ex_uninit
                  [ex_module; ex_module] ex_module
                  (Some (SrcIterator [[1]; [2]])) tt (Some 1)
                  (Sketches [[10]; [20]]) [] (Some (SrcIterator [])))).
  reflexivity.
Defined.

Lemma sketch_second_module_starves_witness :
  sketch ex_Percentile ex_uninit (Modules [ex_module; ex_module])
    (Some (SrcIterator [[1; 2]; [3]])) tt None
  = Raise EmptySourceError.
Proof.
  apply (sketch_second_module_starves ex_Percentile ex_uninit ex_module
           ex_module [] (SrcIterator [[1; 2]; [3]]) [[1; 2]; [3]] tt);
    [reflexivity | by apply ex_batches_nonempty].
Defined.


Lemma sketch_empty_batch_witness :
  len (concat [[1]]) < 3 /\
  sketch ex_Percentile ex_uninit (OneModule ex_module)
    (Some (SrcIterator ([[1]] ++ [] :: [[2; 3]]))) tt (Some 3)
  = Raise RuntimeError.
Proof.
  split; [by vm_compute |].
  apply (sketch_empty_batch ex_Percentile ex_uninit ex_module
           (SrcIterator ([[1]] ++ [] :: [[2; 3]])) [[1]] [[2; 3]] tt (Some 3));
    [reflexivity | by vm_compute].
Defined.

Lemma getitem_twice_is_getitem_of_list_witness :
  let self := mkSketcher (Some (SrcIterator [[1; 2]; [3]])) tt (Some 1) in
  let self1 := mkSketcher (Some (SrcIterator [[3]])) tt (Some 1) in
  let self2 := mkSketcher (Some (SrcIterator [])) tt (Some 1) in
  Sketcher_getitem ex_Percentile ex_uninit self (OneModule ex_module)
    = Ok (OneSketch [10], [], self1) /\
  Sketcher_getitem ex_Percentile ex_uninit self1 (OneModule ex_module)
    = Ok (OneSketch [30], [], self2) /\
  exists q1 q2,
    OneSketch [10] = OneSketch q1 /\ OneSketch [30] = OneSketch q2 /\
    Sketcher_getitem ex_Percentile ex_uninit self
      (Modules [ex_module; ex_module])
    = Ok (Sketches [q1; q2], [] ++ [], self2).
Proof.
  intros self self1 self2.
  split; [reflexivity |]. split; [reflexivity |].
  apply (getitem_twice_is_getitem_of_list ex_Percentile ex_uninit
           self self1 self2 ex_module ex_module); reflexivity.
Defined.




Lemma MD_iterate_seeds_witness :
  md_wf (@MD_init Z Z true 0) /\
  (MD_iterate ex_construct ex_seeded 3 (@MD_init Z Z true 0)).2
    = [Some 101; Some 102; Some 103].
Proof.
  split; [exact I |].
  apply (MD_iterate_seeds ex_construct ex_seeded 3 (@MD_init Z Z true 0)).
  exact I.
Defined.

Lemma TD_getitem_maps_witness :
  TD_getitem ex_transformed (IndexList [2; 0]) = Ok (PairList [(3, 4); (1, 0)]) /\
  length [(3, 4); (1, 0)] = length [2; 0].
Proof.
  split; [reflexivity |].
  apply (proj1 (proj2 (TD_getitem_maps ex_transformed [2; 0]
                         [(3, 4); (1, 0)] 0 (0, 0)))).
  reflexivity.
Defined.

Lemma TD_getitem_first_failure_witness :
  Forall (fun j => exists xy, ex_transformed.(td_dataset) j = Ok xy) [2] /\
  ex_transformed.(td_dataset) 5 = Raise IndexError /\
  TD_getitem ex_transformed (IndexList ([2] ++ 5 :: [0])) = Raise IndexError.
Proof.
  assert (Forall (fun j => exists xy, ex_transformed.(td_dataset) j = Ok xy) [2])
    as Hpre by (constructor; [by eexists | constructor]).
  split; [exact Hpre |]. split; [reflexivity |].
  apply (TD_getitem_first_failure ex_transformed [2] [0] 5 IndexError);
    [exact Hpre | reflexivity].
Defined.
